(** * hetzner-failover.py: the failover loop and its three helpers

    A shallow embedding of [src/hetzner-failover.py].  The script polls the
    HAProxy stats page of a main host and, after repeated failures, points
    the Hetzner failover IPs to a backup host; it points them back once the
    main host answers again.

    The Python functions [log], [api_request], [change_ip],
    [get_failover_of_host], [isup] and the [while True] body of [main] are
    written in a small monad that carries
    - the answers of the network for the current cycle (a reader),
    - main's three loop variables, the output so far and the number of
      requests already sent (a state),
    - Python exceptions (an error). *)

From Stdlib Require Import ZArith List String Ascii Bool Lia DecimalString.
Import ListNotations.

Open Scope string_scope.
Open Scope Z_scope.

(** ** Values the script handles *)

(** [str(n)] for a Python int. *)
Definition str (n : Z) : string := NilZero.string_of_int (Z.to_int n).

(** [s in t] for two Python strings: [s] occurs in [t] as a substring. *)
Fixpoint contains (s t : string) : bool :=
  if prefix s t then true
  else match t with
       | EmptyString => false
       | String _ t' => contains s t'
       end.

(** The [[FAILOVER]] section of the configuration file and the [-v] flag. *)
Record config := Config {
  host : string;
  backup : string;
  hetzner_auth : string;
  hetzner_api : string;
  haproxy_auth : string;
  haproxy_url : string;
  verbose : bool
}.

(** What [main] computes once, before the loop (lines 132-161), and never
    assigns again. *)
Record targets := Targets {
  host_ip : string;
  backup_ip : string;
  main_check_url : string;
  back_check_url : string;
  failips : list string
}.

(** The variables [main] assigns inside the loop (lines 162-164). *)
Record locals := Locals {
  retry : Z;
  down : bool;
  loopcount : Z
}.

Definition initial : locals := Locals 0 false 0.

(** ** The network *)

Inductive method := GET | POST.

(** One call of [requests.get] or [requests.post], with the arguments the
    script passes. *)
Record request := Request {
  meth : method;
  url : string;
  params : option string;
  authorization : string;
  verify : bool;
  timeout : Z
}.

Record response := Response {
  status_code : Z;
  text : string
}.

(** The ways a call of [requests] ends without a response. *)
Inductive requests_error :=
| ConnectionError
| ReadTimeout
| SSLError
| OtherRequestError.

Inductive answer :=
| Answered (r : response)
| Failed (e : requests_error).

(** The answers of one cycle of the loop: [w k] is what the [k]-th request
    sent in that cycle (counting from 0) gets. *)
Definition transport := nat -> answer.

(** ** Exceptions *)

Inductive exn :=
| RequestException (e : requests_error)
| Exception (msg : string)
| NameError (name : string).

(** ** What the script does, in order *)

(** Requests, printed lines, sleeps, and the assignments to main's loop
    variables (recorded so that their order relative to the requests can be
    read off the trace). *)
Inductive event :=
| Http (r : request)
| Print (line : string)
| Sleep (secs : Z)
| Store_retry (n : Z)
| Store_down (b : bool)
| Store_loopcount (n : Z).

Record machine := Machine {
  vars : locals;
  io : list event;
  asked : nat
}.

(** ** The monad *)

Definition M (A : Type) : Type := transport -> machine -> (A + exn) * machine.

Definition ret {A} (a : A) : M A := fun _ m => (inl a, m).

Definition bind {A B} (c : M A) (k : A -> M B) : M B :=
  fun w m =>
    match c w m with
    | (inl a, m') => k a w m'
    | (inr e, m') => (inr e, m')
    end.

Definition raise {A} (e : exn) : M A := fun _ m => (inr e, m).

(** [try: body  except: handler]: a bare [except] catches everything. *)
Definition try_except {A} (body : M A) (handler : M A) : M A :=
  fun w m =>
    match body w m with
    | (inl a, m') => (inl a, m')
    | (inr _, m') => handler w m'
    end.

Declare Scope monad_scope.
Delimit Scope monad_scope with monad.
Notation "x <- c ;; k" := (bind c (fun x => k))
  (at level 61, c at next level, right associativity) : monad_scope.
Notation "c ;; k" := (bind c (fun _ => k))
  (at level 61, right associativity) : monad_scope.
Open Scope monad_scope.

Definition emit (e : event) : M unit :=
  fun _ m => (inl tt, Machine (vars m) (io m ++ [e]) (asked m)).

Definition read {A} (f : locals -> A) : M A :=
  fun _ m => (inl (f (vars m)), m).

Definition set_retry (n : Z) : M unit :=
  fun _ m =>
    (inl tt, Machine (Locals n (down (vars m)) (loopcount (vars m)))
                     (io m ++ [Store_retry n]) (asked m)).

Definition set_down (b : bool) : M unit :=
  fun _ m =>
    (inl tt, Machine (Locals (retry (vars m)) b (loopcount (vars m)))
                     (io m ++ [Store_down b]) (asked m)).

Definition set_loopcount (n : Z) : M unit :=
  fun _ m =>
    (inl tt, Machine (Locals (retry (vars m)) (down (vars m)) n)
                     (io m ++ [Store_loopcount n]) (asked m)).

(** [requests.get] / [requests.post]: the request goes out, and the network
    decides whether a response comes back or the call raises. *)
Definition requests_call (r : request) : M response :=
  fun w m =>
    let m' := Machine (vars m) (io m ++ [Http r]) (S (asked m)) in
    match w (asked m) with
    | Answered resp => (inl resp, m')
    | Failed e => (inr (RequestException e), m')
    end.

Definition when (b : bool) (c : M unit) : M unit :=
  if b then c else ret tt.

(** [for x in xs: body x] *)
Fixpoint for_each {A} (xs : list A) (body : A -> M unit) : M unit :=
  match xs with
  | [] => ret tt
  | x :: xs' => body x ;; for_each xs' body
  end.

(** ** The helpers of the script *)

Definition esc : string := String (ascii_of_nat 27) EmptyString.

(** [log(lvl, msg)], lines 114-127: the line that is printed. *)
Definition log_line (lvl : Z) (msg : string) : string :=
  let '(lvstr, col) :=
    if lvl =? 0 then ("INFO ", esc ++ "[92m")
    else if lvl =? 1 then ("WARN ", esc ++ "[93m")
    else if lvl =? 2 then ("ERROR", esc ++ "[91m")
    else ("DEBUG", esc ++ "[94m") in
  col ++ lvstr ++ esc ++ "[0m " ++ msg.

Definition log (lvl : Z) (msg : string) : M unit :=
  emit (Print (log_line lvl msg)).

Definition sleep (secs : Z) : M unit := emit (Sleep secs).

Section Script.

Variable cfg : config.

(** [api_request(url, data)], lines 50-56. *)
Definition api_request (u : string) (data : option string) : M response :=
  let header := "Basic " ++ hetzner_auth cfg in
  match data with
  | None => requests_call (Request GET u None header true 5)
  | Some d => requests_call (Request POST u (Some d) header true 60)
  end.

(** [change_ip(ip, target)], lines 66-80. *)
Definition change_ip (ip target : string) : M bool :=
  let u := hetzner_api cfg ++ "failover/" ++ ip in
  let data := "active_server_ip=" ++ target in
  try_except
    (resp <- api_request u (Some data) ;;
     when (verbose cfg)
          (log 4 (str (status_code resp) ++ " " ++ text resp)) ;;
     if status_code resp =? 200 then
       log 0 ("Successfully changed " ++ ip ++ " to " ++ target) ;;
       ret true
     else
       raise (Exception "Error changing failover IP"))
    (log 2 ("Could not change target of " ++ ip) ;;
     ret false).

(** [isup(haproxy)], lines 104-111.  Building the header and silencing the
    urllib3 warnings (lines 105-106) send nothing and change nothing the
    loop reads; the request is the only statement inside the [try]. *)
Definition isup (haproxy : string) : M bool :=
  let header := "Basic " ++ haproxy_auth cfg in
  try_except
    (_ <- requests_call (Request GET haproxy None header false 5) ;;
     ret true)
    (ret false).

Variable tg : targets.

(** [stride("red", ..., ...)], line 200.  The module neither defines nor
    imports a name [stride] (its imports are requests, json, socket,
    ArgumentParser, ConfigParser, sys and sleep), so evaluating the call
    raises [NameError] before anything is passed. *)
Definition stride (_ _ _ : string) : M unit :=
  raise (NameError "stride").

(** One pass through the body of [while True], lines 167-203. *)
Definition loop_body : M unit :=
  up <- isup (main_check_url tg) ;;
  (if up then
     when (verbose cfg) (log 4 (host cfg ++ " is up")) ;;
     lc <- read loopcount ;;
     when (lc =? 15)
          (log 0 (host cfg ++ " was up for the last 15 checks") ;;
           set_loopcount 0) ;;
     d <- read down ;;
     (if d then
        r <- read retry ;;
        if r <=? 2 then
          set_retry (r + 1)
        else
          log 0 (host cfg ++ " is back up. Switching Failover") ;;
          set_loopcount 0 ;;
          for_each (failips tg)
                   (fun ip => _ <- change_ip ip (host_ip tg) ;; ret tt) ;;
          set_down false ;;
          set_retry 0
      else
        set_retry 0) ;;
     lc' <- read loopcount ;;
     set_loopcount (lc' + 1)
   else
     r <- read retry ;;
     d <- read down ;;
     if (r <=? 2) && negb d then
       log 1 ("Could not reach " ++ host cfg ++ "! Retry " ++ str r) ;;
       set_retry (r + 1)
     else if negb d then
       bup <- isup (back_check_url tg) ;;
       if bup then
         log 2 (host cfg ++ " is down! Switching failover") ;;
         set_down true ;;
         set_loopcount 0 ;;
         for_each (failips tg)
                  (fun ip => _ <- change_ip ip (backup_ip tg) ;; ret tt) ;;
         set_retry 0
       else
         log 2 "All hosts down! Not switching failover." ;;
         stride "red" "ALL HAPROXY SERVERS ARE DOWN!!!"
                "This should have never happened..."
     else
       log 2 (host cfg ++ " is still down")) ;;
  sleep 2.

(** One cycle: the body run on the variables [st] with the answers [w],
    giving how it ended, the variables afterwards and what it did. *)
Definition cycle (w : transport) (st : locals)
  : (unit + exn) * locals * list event :=
  let '(r, m) := loop_body w (Machine st [] 0%nat) in
  (r, vars m, io m).

(** The loop over the answers of successive cycles.  It stops at the first
    exception that leaves the body (nothing in [main] catches it); [None]
    means every cycle given was completed. *)
Fixpoint run (ws : list transport) (st : locals)
  : option exn * locals * list event :=
  match ws with
  | [] => (None, st, [])
  | w :: ws' =>
      match cycle w st with
      | (inl _, st', tr) =>
          let '(e, st'', tr') := run ws' st' in (e, st'', (tr ++ tr')%list)
      | (inr e, st', tr) => (Some e, st', tr)
      end
  end.

End Script.

(** ** The resolver *)

(** One entry of the listing [get_ips()] returns: the [failover] object of
    the Hetzner API, with the two fields the script reads. *)
Record failover_entry := FailoverEntry {
  ip : string;
  active_server_ip : option string
}.

Record listing_obj := Obj { failover : failover_entry }.

(** [get_failover_of_host(host_ip)], lines 93-101, on the listing [data]
    that its call of [get_ips()] returned (the decoded JSON array). *)
Definition get_failover_of_host (host_ip : string) (data : list listing_obj)
  : list string :=
  fold_left
    (fun failips obj =>
       let failover := failover obj in
       match active_server_ip failover with
       | Some a =>
           if contains host_ip a then (failips ++ [ip failover])%list
           else failips
       | None => failips
       end)
    data [].

(** ** Reading a trace *)

(** The switch requests of a trace: url and form parameter of every POST. *)
Fixpoint switch_calls (tr : list event) : list (string * option string) :=
  match tr with
  | [] => []
  | Http r :: tr' =>
      match meth r with
      | POST => (url r, params r) :: switch_calls tr'
      | GET => switch_calls tr'
      end
  | _ :: tr' => switch_calls tr'
  end.

(** The switch request [change_ip ip target] sends. *)
Definition switch_call (cfg : config) (target ip : string)
  : string * option string :=
  (hetzner_api cfg ++ "failover/" ++ ip, Some ("active_server_ip=" ++ target)).

(** Did the request get a response at all? *)
Definition answered (a : answer) : bool :=
  match a with
  | Answered _ => true
  | Failed _ => false
  end.

(** Every cycle starts with the probe of the main host, so its answer is
    the first of the cycle; the probe of the backup, when it is made, is the
    second request. *)
Definition primary_probe (w : transport) : answer := w 0%nat.
Definition backup_probe (w : transport) : answer := w 1%nat.

(** ** Scenario used in the examples *)

Definition cfg0 : config :=
  Config "lb1.example.org" "lb2.example.org" "dXNlcjpwdw==" "https://robot-ws.your-server.de/"
         "YWRtaW46cHc=" "https://<hostname>:8443/stats" false.

Definition tg0 : targets :=
  Targets "198.51.100.1" "198.51.100.2"
          "https://198.51.100.1:8443/stats" "https://198.51.100.2:8443/stats"
          ["203.0.113.10"; "203.0.113.11"].

Definition ok : answer := Answered (Response 200 "").

(** Main host unreachable, everything else answers 200. *)
Definition w_fail : transport :=
  fun k => match k with O => Failed ConnectionError | _ => ok end.

(** Everything answers 200. *)
Definition w_ok : transport := fun _ => ok.

(** Nothing answers. *)
Definition w_dead : transport := fun _ => Failed ReadTimeout.

(** ** What the proofs talk about *)

(** The probe request [isup] sends. *)
Definition probe (cfg : config) (haproxy : string) : event :=
  Http (Request GET haproxy None ("Basic " ++ haproxy_auth cfg) false 5).

(** What one call [change_ip ip target] adds to the trace when its request
    gets the answer [a]. *)
Definition change_ip_events (cfg : config) (ip target : string) (a : answer)
  : list event :=
  Http (Request POST (hetzner_api cfg ++ "failover/" ++ ip)
                (Some ("active_server_ip=" ++ target))
                ("Basic " ++ hetzner_auth cfg) true 60)
  :: match a with
     | Answered resp =>
         (if verbose cfg
          then [Print (log_line 4 (str (status_code resp) ++ " " ++ text resp))]
          else [])
         ++ [Print (if status_code resp =? 200
                    then log_line 0 ("Successfully changed " ++ ip ++ " to " ++ target)
                    else log_line 2 ("Could not change target of " ++ ip))]
     | Failed _ => [Print (log_line 2 ("Could not change target of " ++ ip))]
     end.

(** What the loop [for ip in failips: change_ip(ip, target)] adds to the
    trace when its first request is the [k]-th of the cycle. *)
Fixpoint batch_events (cfg : config) (target : string) (w : transport)
  (k : nat) (ips : list string) : list event :=
  match ips with
  | [] => []
  | ip :: ips' =>
      change_ip_events cfg ip target (w k)
      ++ batch_events cfg target w (S k) ips'
  end.

(** What a cycle whose probe of the main host was answered does first:
    the probe, the debug line, the notice after 15 good checks. *)
Definition seen_up_events (cfg : config) (tg : targets) (lc : Z) : list event :=
  probe cfg (main_check_url tg)
  :: (if verbose cfg then [Print (log_line 4 (host cfg ++ " is up"))] else [])
  ++ (if lc =? 15
      then [Print (log_line 0 (host cfg ++ " was up for the last 15 checks"));
            Store_loopcount 0]
      else []).

Definition after_notice (lc : Z) : Z := if lc =? 15 then 0 else lc.

(** How a cycle or a run ended, the variables it left, what it did. *)
Definition ended {A} (r : A * locals * list event) : A := fst (fst r).
Definition final {A} (r : A * locals * list event) : locals := snd (fst r).
Definition trace {A} (r : A * locals * list event) : list event := snd r.

(** Switch requests of one batch that fail in four different ways while
    both probes come out as the branch needs them: main host unreachable,
    backup answering. *)
Definition w_switch_fails : transport :=
  fun k => match k with
           | 0%nat => Failed ConnectionError
           | 1%nat => ok
           | 2%nat => Failed ReadTimeout
           | _ => Answered (Response 500 "")
           end.

(** Main host answering, every switch request failing. *)
Definition w_back_fails : transport :=
  fun k => match k with
           | 0%nat => ok
           | _ => Failed ReadTimeout
           end.

(** Is a switch request sent after an assignment to [down]? *)
Fixpoint switch_after_phase_store (tr : list event) : bool :=
  match tr with
  | [] => false
  | Store_down _ :: tr' =>
      match switch_calls tr' with
      | [] => switch_after_phase_store tr'
      | _ :: _ => true
      end
  | _ :: tr' => switch_after_phase_store tr'
  end.

Fixpoint no_phase_store (tr : list event) : bool :=
  match tr with
  | [] => true
  | Store_down _ :: _ => false
  | _ :: tr' => no_phase_store tr'
  end.

(** Is a switch request sent before an assignment to [down]? *)
Fixpoint switch_before_phase_store (tr : list event) : bool :=
  match tr with
  | [] => false
  | Http r :: tr' =>
      match meth r with
      | POST => negb (no_phase_store tr') || switch_before_phase_store tr'
      | GET => switch_before_phase_store tr'
      end
  | _ :: tr' => switch_before_phase_store tr'
  end.

(** The states the loop can be in at the top of a cycle. *)
Inductive reachable (cfg : config) (tg : targets) : locals -> Prop :=
| reach_initial : reachable cfg tg initial
| reach_cycle st w :
    reachable cfg tg st ->
    ended (cycle cfg tg w st) = inl tt ->
    reachable cfg tg (final (cycle cfg tg w st)).

(** ** More ways to read a trace *)

(** The addresses probed: url of every GET of a trace. *)
Fixpoint probes (tr : list event) : list string :=
  match tr with
  | [] => []
  | Http r :: tr' =>
      match meth r with
      | GET => url r :: probes tr'
      | POST => probes tr'
      end
  | _ :: tr' => probes tr'
  end.

(** The sleeps of a trace. *)
Fixpoint sleeps (tr : list event) : list Z :=
  match tr with
  | [] => []
  | Sleep n :: tr' => n :: sleeps tr'
  | _ :: tr' => sleeps tr'
  end.

(** In how many of the cycles [ws] the probe of the main host is answered. *)
Definition answered_probes (ws : list transport) : nat :=
  List.length (filter (fun w => answered (primary_probe w)) ws).

(** The cycle in which the body raises: phase UP, threshold passed, and
    neither host answers. *)
Definition both_unreachable (w : transport) (st : locals) : bool :=
  negb (down st) && (2 <? retry st)
  && negb (answered (primary_probe w)) && negb (answered (backup_probe w)).

(** Does the main host, having failed [k] times in a row already, never
    fail more than 3 times in a row over the cycles [ws]? *)
Fixpoint within_streak (k : nat) (ws : list transport) : bool :=
  match ws with
  | [] => true
  | w :: ws' =>
      if answered (primary_probe w) then within_streak 0 ws'
      else (k <? 3)%nat && within_streak (S k) ws'
  end.

(** The line of line 171. *)
Definition notice (cfg : config) : event :=
  Print (log_line 0 (host cfg ++ " was up for the last 15 checks")).

(** ** Before the loop: the configuration and the start of [main] *)

(** [s.replace(old, new)] for a non-empty [old] (the script only calls it
    with the literal ["<hostname>"]): every occurrence of [old], found
    from the left and not overlapping, gives way to [new].  [skip] counts
    the characters of an occurrence just replaced that are still ahead. *)
Fixpoint replace_from (old new : string) (skip : nat) (s : string) : string :=
  match s with
  | EmptyString => EmptyString
  | String c s' =>
      match skip with
      | S k => replace_from old new k s'
      | O =>
          if prefix old (String c s')
          then new ++ replace_from old new (String.length old - 1) s'
          else String c (replace_from old new 0 s')
      end
  end.

Definition replace (s old new : string) : string := replace_from old new 0 s.

(** What [json.loads(response.text)] and the loop of lines 96-100 make of
    the text of the listing: the entries, when it is a JSON array of objects
    [{"failover": {"ip": str, "active_server_ip": str or null, ...}}] as
    the Robot API documents it, or the text of the exception raised by
    [json.loads] or by the first subscript that does not fit.  Nothing is
    printed or sent between the two, so where the exception comes from
    cannot be told apart by what the script does. *)
Inductive decoded :=
| Listing (data : list listing_obj)
| Undecodable (msg : string).

(** The exceptions of the whole script: those of the loop, and those that
    only occur before it. *)
Inductive py_exn :=
| Lifted (e : exn)
| OSError (msg : string)
| TypeError (msg : string)
| DataError (msg : string)
| SystemExit (code : Z).

(** [except Exception] lets [SystemExit] through. *)
Definition is_Exception (e : py_exn) : bool :=
  match e with
  | SystemExit _ => false
  | _ => true
  end.

(** What the start of [main] asks of the outside: the resolver of host
    names ([inl] the address, [inr] the text of the [socket.gaierror]) and
    the answers to its requests. *)
Record world := World {
  gethostbyname : string -> string + string;
  net : transport
}.

Definition N (A : Type) : Type := world -> machine -> (A + py_exn) * machine.

Definition nret {A} (a : A) : N A := fun _ m => (inl a, m).

Definition nbind {A B} (c : N A) (k : A -> N B) : N B :=
  fun W m =>
    match c W m with
    | (inl a, m') => k a W m'
    | (inr e, m') => (inr e, m')
    end.

Definition nraise {A} (e : py_exn) : N A := fun _ m => (inr e, m).

(** A piece of the loop's monad run before the loop. *)
Definition lift {A} (c : M A) : N A :=
  fun W m =>
    match c (net W) m with
    | (inl a, m') => (inl a, m')
    | (inr e, m') => (inr (Lifted e), m')
    end.

(** [try: body  except Exception as err: handler err] *)
Definition try_except_Exception {A} (body : N A) (handler : py_exn -> N A)
  : N A :=
  fun W m =>
    match body W m with
    | (inl a, m') => (inl a, m')
    | (inr e, m') => if is_Exception e then handler e W m' else (inr e, m')
    end.

Declare Scope startup_scope.
Delimit Scope startup_scope with startup.
Notation "x <- c ;; k" := (nbind c (fun x => k))
  (at level 61, c at next level, right associativity) : startup_scope.
Notation "c ;; k" := (nbind c (fun _ => k))
  (at level 61, right associativity) : startup_scope.

(** [socket.gethostbyname(host)] *)
Definition socket_gethostbyname (h : string) : N string :=
  fun W m =>
    match gethostbyname W h with
    | inl a => (inl a, m)
    | inr msg => (inr (OSError msg), m)
    end.

(** [sys.exit(code)] *)
Definition sys_exit {A} (code : Z) : N A := nraise (SystemExit code).

(** Lines 36-47, at the top of the module.  [parsed] is what
    [config.read(args.config)] leaves behind: [None] when reading raises,
    else the lookup [config[section][key]] with [None] for a [KeyError].
    The handler calls [log], which is only defined on line 114, further
    down the module: at this point the name is not bound and the call
    raises [NameError]. *)
Definition read_config (parsed : option (string -> string -> option string))
  (v : bool) : config + py_exn :=
  let handler := inr (Lifted (NameError "log")) in
  match parsed with
  | None => handler
  | Some get =>
      match get "FAILOVER" "host", get "FAILOVER" "backup",
            get "FAILOVER" "hetzner_auth", get "FAILOVER" "hetzner_api",
            get "FAILOVER" "haproxy_auth", get "FAILOVER" "haproxy_url" with
      | Some h, Some b, Some ha, Some hp, Some pa, Some pu =>
          inl (Config h b ha hp pa pu v)
      | _, _, _, _, _, _ => handler
      end
  end.

Section Startup.

Variable cfg : config.

(** Library functions the start of [main] relies on: the decoding of the
    listing, [str(err)] for an exception of [requests], and [str(l)] for a
    list of strings. *)
Variable json_loads : string -> decoded.
Variable requests_str : requests_error -> string.
Variable list_str : list string -> string.

Local Open Scope startup_scope.

(** [str(err)] *)
Definition str_err (e : py_exn) : string :=
  match e with
  | Lifted (RequestException r) => requests_str r
  | Lifted (Exception msg) => msg
  | Lifted (NameError name) => "name '" ++ name ++ "' is not defined"
  | OSError msg => msg
  | TypeError msg => msg
  | DataError msg => msg
  | SystemExit code => str code
  end.

(** [get_ips()], lines 59-63, together with the reading of its result. *)
Definition get_ips : N (list listing_obj) :=
  let u := hetzner_api cfg ++ "failover" in
  response <- lift (api_request cfg u None) ;;
  match json_loads (text response) with
  | Listing data => nret data
  | Undecodable msg => nraise (DataError msg)
  end.

(** [get_host_ip(host)], lines 83-90. *)
Definition get_host_ip (h : string) : N (option string) :=
  try_except_Exception
    (host_ip <- socket_gethostbyname h ;;
     nret (Some host_ip))
    (fun err =>
       lift (when (verbose cfg) (log 4 (str_err err))) ;;
       nret None).

(** [get_failover_of_host(host_ip)], lines 93-101, with its call of
    [get_ips()]. *)
Definition get_failover_of_host_call (host_ip : string) : N (list string) :=
  data <- get_ips ;;
  nret (get_failover_of_host host_ip data).

(** Lines 132-140 with [h] the main host and, word for word, lines
    141-149 with [h] the backup: find the address of [h] and build its check
    url.  [get_host_ip] gives [None] when the lookup failed, and then
    [haproxy_url.replace("<hostname>", None)] raises [TypeError]. *)
Definition find_ip (h : string) : N (string * string) :=
  try_except_Exception
    (found <- get_host_ip h ;;
     match found with
     | Some a =>
         let check_url := replace (haproxy_url cfg) "<hostname>" a in
         lift (log 0 (h ++ " - IP address found: " ++ a)) ;;
         nret (a, check_url)
     | None =>
         nraise (TypeError "replace() argument 2 must be str, not None")
     end)
    (fun err =>
       lift (log 2 ("Could not find IP address of " ++ h)) ;;
       lift (when (verbose cfg) (log 4 (str_err err))) ;;
       sys_exit 1).

(** [main] up to the loop, lines 131-165. *)
Definition startup : N targets :=
  lift (log 0 "Hetzner Failover Automation Script v0.3") ;;
  main_host <- find_ip (host cfg) ;;
  backup_host <- find_ip (backup cfg) ;;
  failips <- try_except_Exception
    (failips <- get_failover_of_host_call (fst main_host) ;;
     match failips with
     | [] => nraise (Lifted (Exception "Empty response from Hetzner API"))
     | _ :: _ =>
         lift (log 0 ("Got active failover IPs for " ++ host cfg)) ;;
         lift (when (verbose cfg) (log 4 (list_str failips))) ;;
         nret failips
     end)
    (fun err =>
       lift (log 2 ("Could not get Failover IPs for " ++ host cfg)) ;;
       lift (when (verbose cfg) (log 4 (str_err err))) ;;
       sys_exit 1) ;;
  lift (set_retry 0) ;;
  lift (set_down false) ;;
  lift (set_loopcount 0) ;;
  lift (log 0 "Started host checking") ;;
  nret (Targets (fst main_host) (fst backup_host)
                (snd main_host) (snd backup_host) failips).

(** [main()]: the start, then the loop over the answers [ws] of its
    cycles. *)
Definition main (W : world) (ws : list transport)
  : option py_exn * locals * list event :=
  match startup W (Machine initial [] 0) with
  | (inl tg, m) =>
      let '(e, st, tr) := run cfg tg ws (vars m) in
      (option_map Lifted e, st, (io m ++ tr)%list)
  | (inr e, m) => (Some e, vars m, io m)
  end.

End Startup.

(** ** What the start of [main] prints and sends *)

Definition banner : event :=
  Print (log_line 0 "Hetzner Failover Automation Script v0.3").

Definition found_line (h a : string) : event :=
  Print (log_line 0 (h ++ " - IP address found: " ++ a)).

(** What a failed lookup of [h] prints, [msg] being the text of the
    resolver's error. *)
Definition lookup_failed_lines (cfg : config) (h msg : string) : list event :=
  ((if verbose cfg then [Print (log_line 4 msg)] else [])
   ++ [Print (log_line 2 ("Could not find IP address of " ++ h))]
   ++ (if verbose cfg
       then [Print (log_line 4 "replace() argument 2 must be str, not None")]
       else []))%list.

(** The one request of the start: the listing of the failover IPs. *)
Definition listing_request (cfg : config) : event :=
  Http (Request GET (hetzner_api cfg ++ "failover") None
                ("Basic " ++ hetzner_auth cfg) true 5).

(** What the third block prints when it fails with an exception whose
    text is [msg]. *)
Definition listing_failed_lines (cfg : config) (msg : string) : list event :=
  (Print (log_line 2 ("Could not get Failover IPs for " ++ host cfg))
   :: (if verbose cfg then [Print (log_line 4 msg)] else []))%list.

(** What the third block gets out of the answer [a] to the listing
    request: the failover IPs routed to [hip], or the text of the exception
    that ends it. *)
Definition listing_outcome (json_loads : string -> decoded)
  (requests_str : requests_error -> string) (hip : string) (a : answer)
  : list string + string :=
  match a with
  | Failed e => inr (requests_str e)
  | Answered resp =>
      match json_loads (text resp) with
      | Undecodable msg => inr msg
      | Listing data =>
          match get_failover_of_host hip data with
          | [] => inr "Empty response from Hetzner API"
          | ip0 :: ips => inl (ip0 :: ips)
          end
      end
  end.

(** What a start that goes through prints and sends. *)
Definition startup_events (cfg : config) (list_str : list string -> string)
  (hip bip : string) (failips : list string) : list event :=
  ([banner; found_line (host cfg) hip; found_line (backup cfg) bip;
    listing_request cfg;
    Print (log_line 0 ("Got active failover IPs for " ++ host cfg))]
   ++ (if verbose cfg then [Print (log_line 4 (list_str failips))] else [])
   ++ [Store_retry 0; Store_down false; Store_loopcount 0;
       Print (log_line 0 "Started host checking")])%list.

(** A resolver and a configuration for the examples. *)
Definition dns0 (h : string) : string + string :=
  if String.eqb h "lb1.example.org" then inl "198.51.100.1"
  else if String.eqb h "lb2.example.org" then inl "198.51.100.2"
  else inr "[Errno -2] Name or service not known".

Definition listing0 : list listing_obj :=
  [Obj (FailoverEntry "203.0.113.10" (Some "198.51.100.1"));
   Obj (FailoverEntry "203.0.113.11" (Some "198.51.100.1"));
   Obj (FailoverEntry "203.0.113.12" (Some "198.51.100.2"));
   Obj (FailoverEntry "203.0.113.13" None)].

Definition json_loads0 (t : string) : decoded :=
  if String.eqb t "listing" then Listing listing0
  else Undecodable "Expecting value: line 1 column 1 (char 0)".

Definition requests_str0 (e : requests_error) : string := "request failed".

Definition list_str0 (l : list string) : string := String.concat ", " l.

Definition W0 : world :=
  World dns0 (fun _ => Answered (Response 200 "listing")).

(** ** Running the helpers *)

Arguments log_line : simpl never.
Arguments str : simpl never.
Arguments String.append : simpl never.

Lemma switch_calls_app (t1 t2 : list event) :
  switch_calls (t1 ++ t2) = (switch_calls t1 ++ switch_calls t2)%list.
Proof.
  induction t1 as [|e t1 IH]; simpl; [reflexivity|].
  destruct e as [r| | | | |]; try exact IH.
  destruct (meth r); simpl; now rewrite IH.
Qed.

Lemma isup_run cfg haproxy w m :
  isup cfg haproxy w m =
  (inl (answered (w (asked m))),
   Machine (vars m) (io m ++ [probe cfg haproxy]) (S (asked m))).
Proof.
  unfold isup, try_except, bind, requests_call, ret, probe.
  destruct (w (asked m)); reflexivity.
Qed.

Lemma change_ip_run cfg ip target w m :
  change_ip cfg ip target w m =
  (inl (match w (asked m) with
        | Answered resp => status_code resp =? 200
        | Failed _ => false
        end),
   Machine (vars m)
           (io m ++ change_ip_events cfg ip target (w (asked m)))
           (S (asked m))).
Proof.
  unfold change_ip, change_ip_events, try_except, bind, api_request,
    requests_call, when, log, emit, ret, raise.
  destruct (w (asked m)) as [resp|e]; cbn [vars io asked].
  - destruct (verbose cfg); cbn [vars io asked];
      destruct (status_code resp =? 200); cbn [vars io asked];
      rewrite <- ?app_assoc; reflexivity.
  - rewrite <- app_assoc; reflexivity.
Qed.

Lemma switch_calls_change_ip cfg ip target a :
  switch_calls (change_ip_events cfg ip target a) = [switch_call cfg target ip].
Proof.
  unfold change_ip_events, switch_call.
  destruct a as [resp|e]; cbn; [destruct (verbose cfg)|]; reflexivity.
Qed.

Lemma batch_run cfg target w ips : forall m,
  for_each ips (fun ip => _ <- change_ip cfg ip target ;; ret tt) w m =
  (inl tt,
   Machine (vars m) (io m ++ batch_events cfg target w (asked m) ips)
           (asked m + List.length ips)).
Proof.
  induction ips as [|ip ips IH]; intros m; cbn [for_each batch_events List.length].
  - unfold ret. rewrite app_nil_r, Nat.add_0_r. now destruct m.
  - unfold bind at 1. unfold bind at 1. rewrite change_ip_run.
    unfold ret at 1. rewrite IH. cbn [vars io asked].
    rewrite <- app_assoc, Nat.add_succ_r. reflexivity.
Qed.

Lemma switch_calls_batch cfg target w ips : forall k,
  switch_calls (batch_events cfg target w k ips) =
  map (switch_call cfg target) ips.
Proof.
  induction ips as [|ip ips IH]; intros k; cbn [batch_events map]; [reflexivity|].
  now rewrite switch_calls_app, switch_calls_change_ip, IH.
Qed.

(** ** The branches of one cycle *)

(** Running a sequence statement by statement. *)
Lemma bind_run {A B} (c : M A) (k : A -> M B) w m a m' :
  c w m = (inl a, m') -> bind c k w m = k a w m'.
Proof. unfold bind; now intros ->. Qed.

Lemma bind_assoc {A B C} (c : M A) (k1 : A -> M B) (k2 : B -> M C) w m :
  bind (bind c k1) k2 w m = bind c (fun a => bind (k1 a) k2) w m.
Proof. unfold bind; destruct (c w m) as [[a|e] m']; reflexivity. Qed.

Ltac step :=
  first [ rewrite bind_assoc
        | erewrite bind_run
            by first [apply isup_run | apply batch_run | reflexivity] ];
  cbv beta; cbn [vars io asked retry down loopcount andb negb when].

Ltac use_cond :=
  match goal with
  | H : ?b = true |- context [?b] => rewrite H
  | H : ?b = false |- context [?b] => rewrite H
  end; cbv beta iota; cbn [vars io asked retry down loopcount andb negb when].

Ltac run_body := repeat first [step | use_cond].

Ltac finish :=
  cbv [sleep log emit stride raise set_retry set_loopcount set_down];
  cbn [vars io asked retry down loopcount];
  rewrite <- ?app_assoc; cbn [app]; try reflexivity.

Section Branches.

Variable cfg : config.
Variable tg : targets.
Variable w : transport.

Lemma cycle_up_ok r lc :
  answered (primary_probe w) = true ->
  cycle cfg tg w (Locals r false lc) =
  (inl tt, Locals 0 false (after_notice lc + 1),
   (seen_up_events cfg tg lc
    ++ [Store_retry 0; Store_loopcount (after_notice lc + 1); Sleep 2])%list).
Proof.
  unfold primary_probe; intros Hp.
  unfold cycle, loop_body, seen_up_events, after_notice.
  destruct (verbose cfg) eqn:Hv, (lc =? 15) eqn:Hlc; run_body; finish.
Qed.

Lemma cycle_down_ok_count r lc :
  answered (primary_probe w) = true ->
  r <= 2 ->
  cycle cfg tg w (Locals r true lc) =
  (inl tt, Locals (r + 1) true (after_notice lc + 1),
   (seen_up_events cfg tg lc
    ++ [Store_retry (r + 1); Store_loopcount (after_notice lc + 1); Sleep 2])%list).
Proof.
  unfold primary_probe; intros Hp Hr. apply Z.leb_le in Hr.
  unfold cycle, loop_body, seen_up_events, after_notice.
  destruct (verbose cfg) eqn:Hv, (lc =? 15) eqn:Hlc; run_body; finish.
Qed.

Lemma cycle_down_ok_switch r lc :
  answered (primary_probe w) = true ->
  2 < r ->
  cycle cfg tg w (Locals r true lc) =
  (inl tt, Locals 0 false 1,
   (seen_up_events cfg tg lc
    ++ [Print (log_line 0 (host cfg ++ " is back up. Switching Failover"));
        Store_loopcount 0]
    ++ batch_events cfg (host_ip tg) w 1 (failips tg)
    ++ [Store_down false; Store_retry 0; Store_loopcount 1; Sleep 2])%list).
Proof.
  unfold primary_probe; intros Hp Hr. apply Z.leb_gt in Hr.
  unfold cycle, loop_body, seen_up_events.
  destruct (verbose cfg) eqn:Hv, (lc =? 15) eqn:Hlc; run_body; finish.
Qed.

Lemma cycle_up_fail_count r lc :
  answered (primary_probe w) = false ->
  r <= 2 ->
  cycle cfg tg w (Locals r false lc) =
  (inl tt, Locals (r + 1) false lc,
   [probe cfg (main_check_url tg);
    Print (log_line 1 ("Could not reach " ++ host cfg ++ "! Retry " ++ str r));
    Store_retry (r + 1); Sleep 2]).
Proof.
  unfold primary_probe; intros Hp Hr. apply Z.leb_le in Hr.
  unfold cycle, loop_body. run_body; finish.
Qed.

Lemma cycle_up_fail_switch r lc :
  answered (primary_probe w) = false ->
  2 < r ->
  answered (backup_probe w) = true ->
  cycle cfg tg w (Locals r false lc) =
  (inl tt, Locals 0 true 0,
   ([probe cfg (main_check_url tg); probe cfg (back_check_url tg);
     Print (log_line 2 (host cfg ++ " is down! Switching failover"));
     Store_down true; Store_loopcount 0]
    ++ batch_events cfg (backup_ip tg) w 2 (failips tg)
    ++ [Store_retry 0; Sleep 2])%list).
Proof.
  unfold primary_probe, backup_probe; intros Hp Hr Hb. apply Z.leb_gt in Hr.
  unfold cycle, loop_body. run_body; finish.
Qed.

Lemma cycle_up_fail_both r lc :
  answered (primary_probe w) = false ->
  2 < r ->
  answered (backup_probe w) = false ->
  cycle cfg tg w (Locals r false lc) =
  (inr (NameError "stride"), Locals r false lc,
   [probe cfg (main_check_url tg); probe cfg (back_check_url tg);
    Print (log_line 2 "All hosts down! Not switching failover.")]).
Proof.
  unfold primary_probe, backup_probe; intros Hp Hr Hb. apply Z.leb_gt in Hr.
  unfold cycle, loop_body. run_body.
  unfold bind at 1. run_body. finish.
Qed.

Lemma cycle_down_fail r lc :
  answered (primary_probe w) = false ->
  cycle cfg tg w (Locals r true lc) =
  (inl tt, Locals r true lc,
   [probe cfg (main_check_url tg);
    Print (log_line 2 (host cfg ++ " is still down")); Sleep 2]).
Proof.
  unfold primary_probe; intros Hp.
  unfold cycle, loop_body.
  destruct (r <=? 2) eqn:Hr; run_body; finish.
Qed.

End Branches.

(** ** Runs of several cycles *)

Section Runs.

Variable cfg : config.
Variable tg : targets.

Lemma run_app ws1 ws2 st :
  run cfg tg (ws1 ++ ws2) st =
  match run cfg tg ws1 st with
  | (None, st1, tr1) =>
      let '(e, st2, tr2) := run cfg tg ws2 st1 in (e, st2, (tr1 ++ tr2)%list)
  | (Some e, st1, tr1) => (Some e, st1, tr1)
  end.
Proof.
  revert st; induction ws1 as [|w ws1 IH]; intros st; cbn [app run].
  - now destruct (run cfg tg ws2 st) as [[e st2] tr2].
  - destruct (cycle cfg tg w st) as [[[[]|e] st'] tr]; [|reflexivity].
    rewrite IH. destruct (run cfg tg ws1 st') as [[[e1|] st1] tr1]; [reflexivity|].
    destruct (run cfg tg ws2 st1) as [[e2 st2] tr2].
    now rewrite app_assoc.
Qed.

Lemma switch_calls_seen_up lc :
  switch_calls (seen_up_events cfg tg lc) = [].
Proof.
  unfold seen_up_events, probe.
  destruct (verbose cfg), (lc =? 15); reflexivity.
Qed.

(** Failed probes of the main host while UP and below the threshold only
    count. *)
Lemma counting_failures ws : forall r lc,
  Forall (fun w => answered (primary_probe w) = false) ws ->
  r + Z.of_nat (List.length ws) <= 3 ->
  ended (run cfg tg ws (Locals r false lc)) = None /\
  final (run cfg tg ws (Locals r false lc)) =
    Locals (r + Z.of_nat (List.length ws)) false lc /\
  switch_calls (trace (run cfg tg ws (Locals r false lc))) = [].
Proof.
  induction ws as [|w ws IH]; intros r lc Hf Hr.
  - cbn. now rewrite Z.add_0_r.
  - inversion Hf as [|? ? Hw Hws]; subst.
    cbn [List.length] in Hr. rewrite Nat2Z.inj_succ in Hr.
    cbn [run]. rewrite cycle_up_fail_count by (assumption || lia).
    destruct (IH (r + 1) lc Hws ltac:(lia)) as (He & Hs & Ht).
    destruct (run cfg tg ws (Locals (r + 1) false lc)) as [[e st] tr].
    unfold ended, final, trace in *; cbn [fst snd] in *.
    repeat split; [assumption| |].
    + rewrite Hs. cbn [List.length]. rewrite Nat2Z.inj_succ. f_equal. lia.
    + cbn. exact Ht.
Qed.

(** Answered probes of the main host while DOWN and below the threshold
    only count. *)
Lemma counting_successes ws : forall r lc,
  Forall (fun w => answered (primary_probe w) = true) ws ->
  r + Z.of_nat (List.length ws) <= 3 ->
  ended (run cfg tg ws (Locals r true lc)) = None /\
  retry (final (run cfg tg ws (Locals r true lc))) =
    r + Z.of_nat (List.length ws) /\
  down (final (run cfg tg ws (Locals r true lc))) = true /\
  switch_calls (trace (run cfg tg ws (Locals r true lc))) = [].
Proof.
  induction ws as [|w ws IH]; intros r lc Hf Hr.
  - cbn. now rewrite Z.add_0_r.
  - inversion Hf as [|? ? Hw Hws]; subst.
    cbn [List.length] in Hr. rewrite Nat2Z.inj_succ in Hr.
    cbn [run]. rewrite cycle_down_ok_count by (assumption || lia).
    destruct (IH (r + 1) (after_notice lc + 1) Hws ltac:(lia)) as (He & Hs & Hd & Ht).
    destruct (run cfg tg ws (Locals (r + 1) true (after_notice lc + 1)))
      as [[e st] tr].
    unfold ended, final, trace in *; cbn [fst snd] in *.
    repeat split; [assumption| |assumption|].
    + rewrite Hs. cbn [List.length]. rewrite Nat2Z.inj_succ. lia.
    + rewrite switch_calls_app, switch_calls_app, switch_calls_seen_up.
      cbn. exact Ht.
Qed.

End Runs.

(** ** The claims *)

Section Claims.

Variable cfg : config.
Variable tg : targets.

(** C1 (as amended).  Start in phase UP with no failure counted.  While the
    probe of the main host has failed at most 3 times in a row the phase is
    still UP, [retry] holds the number of failures and no switch request has
    been sent.  On the 4th failure in a row, if the probe of the backup made
    in that cycle is answered, the loop sends exactly one switch request per
    entry of [failips], each naming the backup address, and the phase is
    DOWN with [retry] back at 0. *)
Theorem C1_switch_on_fourth_failure lc ws w4 :
  Forall (fun w => answered (primary_probe w) = false) ws ->
  (List.length ws <= 3)%nat ->
  (ended (run cfg tg ws (Locals 0 false lc)) = None /\
   down (final (run cfg tg ws (Locals 0 false lc))) = false /\
   retry (final (run cfg tg ws (Locals 0 false lc))) = Z.of_nat (List.length ws) /\
   switch_calls (trace (run cfg tg ws (Locals 0 false lc))) = []) /\
  (List.length ws = 3%nat ->
   answered (primary_probe w4) = false ->
   answered (backup_probe w4) = true ->
   ended (run cfg tg (ws ++ [w4]) (Locals 0 false lc)) = None /\
   final (run cfg tg (ws ++ [w4]) (Locals 0 false lc)) = Locals 0 true 0 /\
   switch_calls (trace (run cfg tg (ws ++ [w4]) (Locals 0 false lc))) =
     map (switch_call cfg (backup_ip tg)) (failips tg)).
Proof.
  intros Hf Hlen.
  destruct (counting_failures cfg tg ws 0 lc Hf ltac:(lia)) as (He & Hs & Ht).
  split.
  - rewrite Hs; cbn [down retry]. now rewrite Z.add_0_l.
  - intros H3 Hp Hb. rewrite run_app.
    destruct (run cfg tg ws (Locals 0 false lc)) as [[e st] tr].
    unfold ended, final, trace in *; cbn [fst snd] in *. subst e st.
    rewrite H3. cbn [run].
    rewrite cycle_up_fail_switch by (assumption || (cbn; lia)).
    cbn [fst snd]. repeat split.
    rewrite !switch_calls_app, Ht, switch_calls_batch. cbn.
    now rewrite !app_nil_r.
Qed.

(** C2 (as amended).  Start in phase DOWN with [retry] at 0, as the switch to
    the backup leaves it.  While the probe of the main host has been answered
    at most 3 times in a row the phase is still DOWN, [retry] holds their
    number and no switch request has been sent.  On the 4th answered probe in
    a row the loop sends exactly one switch request per entry of [failips],
    each naming the main address, and the phase is UP with [retry] at 0. *)
Theorem C2_switch_back_on_fourth_success lc ws w4 :
  Forall (fun w => answered (primary_probe w) = true) ws ->
  (List.length ws <= 3)%nat ->
  (ended (run cfg tg ws (Locals 0 true lc)) = None /\
   down (final (run cfg tg ws (Locals 0 true lc))) = true /\
   retry (final (run cfg tg ws (Locals 0 true lc))) = Z.of_nat (List.length ws) /\
   switch_calls (trace (run cfg tg ws (Locals 0 true lc))) = []) /\
  (List.length ws = 3%nat ->
   answered (primary_probe w4) = true ->
   ended (run cfg tg (ws ++ [w4]) (Locals 0 true lc)) = None /\
   final (run cfg tg (ws ++ [w4]) (Locals 0 true lc)) = Locals 0 false 1 /\
   switch_calls (trace (run cfg tg (ws ++ [w4]) (Locals 0 true lc))) =
     map (switch_call cfg (host_ip tg)) (failips tg)).
Proof.
  intros Hf Hlen.
  destruct (counting_successes cfg tg ws 0 lc Hf ltac:(lia)) as (He & Hr & Hd & Ht).
  split.
  - rewrite Hr. now rewrite Z.add_0_l.
  - intros H3 Hp. rewrite run_app.
    destruct (run cfg tg ws (Locals 0 true lc)) as [[e [r d lc']] tr].
    unfold ended, final, trace in *; cbn [fst snd retry down] in *. subst e r d.
    rewrite H3. cbn [run].
    rewrite cycle_down_ok_switch by (assumption || (cbn; lia)).
    cbn [fst snd]. repeat split.
    rewrite !switch_calls_app, Ht, switch_calls_seen_up, switch_calls_batch.
    cbn. now rewrite !app_nil_r.
Qed.

End Claims.

(** C1 as stated fails: after the 3rd failed probe in a row, with a backup
    that would answer, the phase is still UP and nothing was switched. *)
Lemma C1_third_failure_keeps_up :
  Forall (fun w => answered (primary_probe w) = false /\
                   answered (backup_probe w) = true)
         [w_fail; w_fail; w_fail] /\
  down (final (run cfg0 tg0 [w_fail; w_fail; w_fail] initial)) = false /\
  switch_calls (trace (run cfg0 tg0 [w_fail; w_fail; w_fail] initial)) = [] /\
  ~ (down (final (run cfg0 tg0 [w_fail; w_fail; w_fail] initial)) = true /\
     switch_calls (trace (run cfg0 tg0 [w_fail; w_fail; w_fail] initial)) =
       map (switch_call cfg0 (backup_ip tg0)) (failips tg0)).
Proof.
  split; [repeat constructor|].
  split; [reflexivity|]. split; [reflexivity|].
  intros [H _]. vm_compute in H. discriminate H.
Qed.

Lemma C1_switch_on_fourth_failure_witness :
  (ended (run cfg0 tg0 [w_fail; w_fail; w_fail] (Locals 0 false 0)) = None /\
   down (final (run cfg0 tg0 [w_fail; w_fail; w_fail] (Locals 0 false 0))) = false /\
   retry (final (run cfg0 tg0 [w_fail; w_fail; w_fail] (Locals 0 false 0))) = 3 /\
   switch_calls (trace (run cfg0 tg0 [w_fail; w_fail; w_fail] (Locals 0 false 0))) = []) /\
  ended (run cfg0 tg0 ([w_fail; w_fail; w_fail] ++ [w_fail]) (Locals 0 false 0)) = None /\
  final (run cfg0 tg0 ([w_fail; w_fail; w_fail] ++ [w_fail]) (Locals 0 false 0)) =
    Locals 0 true 0 /\
  switch_calls (trace (run cfg0 tg0 ([w_fail; w_fail; w_fail] ++ [w_fail]) (Locals 0 false 0))) =
    map (switch_call cfg0 (backup_ip tg0)) (failips tg0).
Proof.
  destruct (C1_switch_on_fourth_failure cfg0 tg0 0 [w_fail; w_fail; w_fail] w_fail)
    as [Ha Hb].
  - repeat constructor.
  - simpl; lia.
  - split; [exact Ha|]. apply Hb; reflexivity.
Defined.

(** C2 as stated fails: after the 3rd answered probe in a row the phase is
    still DOWN and nothing was switched back. *)
Lemma C2_third_success_keeps_down :
  Forall (fun w => answered (primary_probe w) = true) [w_ok; w_ok; w_ok] /\
  down (final (run cfg0 tg0 [w_ok; w_ok; w_ok] (Locals 0 true 0))) = true /\
  switch_calls (trace (run cfg0 tg0 [w_ok; w_ok; w_ok] (Locals 0 true 0))) = [] /\
  ~ (down (final (run cfg0 tg0 [w_ok; w_ok; w_ok] (Locals 0 true 0))) = false /\
     switch_calls (trace (run cfg0 tg0 [w_ok; w_ok; w_ok] (Locals 0 true 0))) =
       map (switch_call cfg0 (host_ip tg0)) (failips tg0)).
Proof.
  split; [repeat constructor|].
  split; [reflexivity|]. split; [reflexivity|].
  intros [H _]. vm_compute in H. discriminate H.
Qed.

Lemma C2_switch_back_on_fourth_success_witness :
  (ended (run cfg0 tg0 [w_ok; w_ok; w_ok] (Locals 0 true 0)) = None /\
   down (final (run cfg0 tg0 [w_ok; w_ok; w_ok] (Locals 0 true 0))) = true /\
   retry (final (run cfg0 tg0 [w_ok; w_ok; w_ok] (Locals 0 true 0))) = 3 /\
   switch_calls (trace (run cfg0 tg0 [w_ok; w_ok; w_ok] (Locals 0 true 0))) = []) /\
  ended (run cfg0 tg0 ([w_ok; w_ok; w_ok] ++ [w_ok]) (Locals 0 true 0)) = None /\
  final (run cfg0 tg0 ([w_ok; w_ok; w_ok] ++ [w_ok]) (Locals 0 true 0)) =
    Locals 0 false 1 /\
  switch_calls (trace (run cfg0 tg0 ([w_ok; w_ok; w_ok] ++ [w_ok]) (Locals 0 true 0))) =
    map (switch_call cfg0 (host_ip tg0)) (failips tg0).
Proof.
  destruct (C2_switch_back_on_fourth_success cfg0 tg0 0 [w_ok; w_ok; w_ok] w_ok)
    as [Ha Hb].
  - repeat constructor.
  - simpl; lia.
  - split; [exact Ha|]. apply Hb; reflexivity.
Defined.

Ltac by_branch cfg tg w r d lc :=
  destruct (answered (primary_probe w)) eqn:?Hp;
  destruct d;
  destruct (Z.le_gt_cases r 2) as [?Hr|?Hr];
  destruct (answered (backup_probe w)) eqn:?Hb;
  first [ rewrite (cycle_up_ok cfg tg w r lc) by assumption
        | rewrite (cycle_down_ok_count cfg tg w r lc) by assumption
        | rewrite (cycle_down_ok_switch cfg tg w r lc) by assumption
        | rewrite (cycle_up_fail_count cfg tg w r lc) by assumption
        | rewrite (cycle_up_fail_switch cfg tg w r lc) by assumption
        | rewrite (cycle_up_fail_both cfg tg w r lc) by assumption
        | rewrite (cycle_down_fail cfg tg w r lc) by assumption ];
  unfold ended, final, trace; cbn [fst snd retry down loopcount].

Section MoreClaims.

Variable cfg : config.
Variable tg : targets.

(** C3 (what the code does).  In phase UP with the threshold passed, when
    the probe of the main host and the probe of the backup both fail, the
    cycle prints the error line and then raises [NameError] at the call of
    [stride]: the variables are untouched and no switch request is sent, but
    the exception leaves the loop, so none of the following cycles runs. *)
Theorem C3_both_unreachable_raises w ws r lc :
  2 < r ->
  answered (primary_probe w) = false ->
  answered (backup_probe w) = false ->
  cycle cfg tg w (Locals r false lc) =
    (inr (NameError "stride"), Locals r false lc,
     [probe cfg (main_check_url tg); probe cfg (back_check_url tg);
      Print (log_line 2 "All hosts down! Not switching failover.")]) /\
  run cfg tg (w :: ws) (Locals r false lc) =
    (Some (NameError "stride"), Locals r false lc,
     [probe cfg (main_check_url tg); probe cfg (back_check_url tg);
      Print (log_line 2 "All hosts down! Not switching failover.")]).
Proof.
  intros Hr Hp Hb. cbn [run].
  rewrite cycle_up_fail_both by assumption. split; reflexivity.
Qed.

(** C4.  A cycle that starts in phase DOWN and whose probe of the main host
    fails sends the probe, prints the "still down" line, sleeps, and leaves
    [retry], [down] and [loopcount] as they were.  And whatever the cycle,
    a switch request in its trace means the phase changed in that cycle. *)
Theorem C4_still_down_is_idle w st :
  (down st = true ->
   answered (primary_probe w) = false ->
   cycle cfg tg w st =
     (inl tt, st,
      [probe cfg (main_check_url tg);
       Print (log_line 2 (host cfg ++ " is still down")); Sleep 2])) /\
  (switch_calls (trace (cycle cfg tg w st)) <> [] ->
   down (final (cycle cfg tg w st)) = negb (down st)).
Proof.
  destruct st as [r d lc]. split.
  - cbn [down]. intros -> Hp. now apply cycle_down_fail.
  - by_branch cfg tg w r d lc; try reflexivity; try lia;
      rewrite ?switch_calls_app, ?switch_calls_seen_up; cbn; congruence.
Qed.

(** C5.  In both transition cycles the answers to the switch requests are
    arbitrary ([w] is only constrained on the probes), and yet the cycle
    completes, the phase and the counters take their new values, and the
    switch requests sent are exactly one per entry of [failips], in order,
    each with the new target. *)
Theorem C5_batch_ignores_outcomes w r lc :
  2 < r ->
  (answered (primary_probe w) = false ->
   answered (backup_probe w) = true ->
   ended (cycle cfg tg w (Locals r false lc)) = inl tt /\
   final (cycle cfg tg w (Locals r false lc)) = Locals 0 true 0 /\
   switch_calls (trace (cycle cfg tg w (Locals r false lc))) =
     map (switch_call cfg (backup_ip tg)) (failips tg)) /\
  (answered (primary_probe w) = true ->
   ended (cycle cfg tg w (Locals r true lc)) = inl tt /\
   final (cycle cfg tg w (Locals r true lc)) = Locals 0 false 1 /\
   switch_calls (trace (cycle cfg tg w (Locals r true lc))) =
     map (switch_call cfg (host_ip tg)) (failips tg)).
Proof.
  intros Hr. split.
  - intros Hp Hb. rewrite cycle_up_fail_switch by assumption.
    unfold ended, final, trace; cbn [fst snd]. repeat split.
    rewrite !switch_calls_app, switch_calls_batch. cbn.
    now rewrite !app_nil_r.
  - intros Hp. rewrite cycle_down_ok_switch by assumption.
    unfold ended, final, trace; cbn [fst snd]. repeat split.
    rewrite !switch_calls_app, switch_calls_seen_up, switch_calls_batch. cbn.
    now rewrite !app_nil_r.
Qed.

End MoreClaims.

Lemma C3_both_unreachable_raises_witness :
  cycle cfg0 tg0 w_dead (Locals 3 false 0) =
    (inr (NameError "stride"), Locals 3 false 0,
     [probe cfg0 (main_check_url tg0); probe cfg0 (back_check_url tg0);
      Print (log_line 2 "All hosts down! Not switching failover.")]) /\
  run cfg0 tg0 [w_dead; w_ok; w_ok] (Locals 3 false 0) =
    (Some (NameError "stride"), Locals 3 false 0,
     [probe cfg0 (main_check_url tg0); probe cfg0 (back_check_url tg0);
      Print (log_line 2 "All hosts down! Not switching failover.")]).
Proof.
  apply (C3_both_unreachable_raises cfg0 tg0 w_dead [w_ok; w_ok] 3 0);
    [lia | reflexivity | reflexivity].
Defined.

(** The same from the start of the script: four cycles in which nothing
    answers, and the loop is over. *)
Example both_unreachable_from_start :
  ended (run cfg0 tg0 [w_dead; w_dead; w_dead; w_dead; w_ok; w_ok] initial) =
    Some (NameError "stride") /\
  final (run cfg0 tg0 [w_dead; w_dead; w_dead; w_dead; w_ok; w_ok] initial) =
    Locals 3 false 0.
Proof. split; reflexivity. Qed.

Lemma C4_still_down_is_idle_witness :
  cycle cfg0 tg0 w_dead (Locals 0 true 0) =
    (inl tt, Locals 0 true 0,
     [probe cfg0 (main_check_url tg0);
      Print (log_line 2 (host cfg0 ++ " is still down")); Sleep 2]) /\
  down (final (cycle cfg0 tg0 w_fail (Locals 3 false 0))) =
    negb (down (Locals 3 false 0)).
Proof.
  split.
  - apply (proj1 (C4_still_down_is_idle cfg0 tg0 w_dead (Locals 0 true 0)));
      reflexivity.
  - apply (proj2 (C4_still_down_is_idle cfg0 tg0 w_fail (Locals 3 false 0))).
    vm_compute. discriminate.
Defined.

Lemma C5_batch_ignores_outcomes_witness :
  (ended (cycle cfg0 tg0 w_switch_fails (Locals 3 false 0)) = inl tt /\
   final (cycle cfg0 tg0 w_switch_fails (Locals 3 false 0)) = Locals 0 true 0 /\
   switch_calls (trace (cycle cfg0 tg0 w_switch_fails (Locals 3 false 0))) =
     map (switch_call cfg0 (backup_ip tg0)) (failips tg0)) /\
  (ended (cycle cfg0 tg0 w_back_fails (Locals 3 true 0)) = inl tt /\
   final (cycle cfg0 tg0 w_back_fails (Locals 3 true 0)) = Locals 0 false 1 /\
   switch_calls (trace (cycle cfg0 tg0 w_back_fails (Locals 3 true 0))) =
     map (switch_call cfg0 (host_ip tg0)) (failips tg0)).
Proof.
  split.
  - apply (proj1 (C5_batch_ignores_outcomes cfg0 tg0 w_switch_fails 3 0 ltac:(lia)));
      reflexivity.
  - apply (proj2 (C5_batch_ignores_outcomes cfg0 tg0 w_back_fails 3 0 ltac:(lia)));
      reflexivity.
Defined.

(** In that cycle both switch requests fail, each is logged once, and the
    second is still sent after the first has failed. *)
Example failed_switches_are_logged_not_retried :
  trace (cycle cfg0 tg0 w_switch_fails (Locals 3 false 0)) =
  [probe cfg0 (main_check_url tg0); probe cfg0 (back_check_url tg0);
   Print (log_line 2 (host cfg0 ++ " is down! Switching failover"));
   Store_down true; Store_loopcount 0;
   Http (Request POST (hetzner_api cfg0 ++ "failover/203.0.113.10")
                 (Some "active_server_ip=198.51.100.2")
                 ("Basic " ++ hetzner_auth cfg0) true 60);
   Print (log_line 2 "Could not change target of 203.0.113.10");
   Http (Request POST (hetzner_api cfg0 ++ "failover/203.0.113.11")
                 (Some "active_server_ip=198.51.100.2")
                 ("Basic " ++ hetzner_auth cfg0) true 60);
   Print (log_line 2 "Could not change target of 203.0.113.11");
   Store_retry 0; Sleep 2].
Proof. reflexivity. Qed.

(** ** The prober and the switch *)

(** C6.  Whatever the address, the answers of the network and the state it
    is called in, [isup] returns a boolean and never raises; it sends one
    GET (5 s, no certificate check) and no second one; the result is [true]
    when a response came back and [false] for every way the request can
    fail. *)
Theorem C6_isup_total cfg haproxy w m :
  isup cfg haproxy w m =
  (inl (match w (asked m) with
        | Answered _ => true
        | Failed _ => false
        end),
   Machine (vars m)
           (io m ++ [Http (Request GET haproxy None
                                   ("Basic " ++ haproxy_auth cfg) false 5)])
           (S (asked m))).
Proof. rewrite isup_run. reflexivity. Qed.

(** C7 (as amended).  [change_ip] never raises and sends exactly one POST.
    It returns [true] exactly when a response came back with status 200;
    otherwise it returns [false] and has printed the error line. *)
Theorem C7_true_iff_status_200 cfg ip target w m :
  exists b tl,
    change_ip cfg ip target w m =
      (inl b, Machine (vars m) (io m ++ tl) (S (asked m))) /\
    (b = true <->
     exists resp, w (asked m) = Answered resp /\ status_code resp = 200) /\
    switch_calls tl = [switch_call cfg target ip] /\
    (b = false ->
     In (Print (log_line 2 ("Could not change target of " ++ ip))) tl).
Proof.
  rewrite change_ip_run.
  eexists _, _. split; [reflexivity|].
  split; [|split; [apply switch_calls_change_ip|]].
  - destruct (w (asked m)) as [resp|e].
    + rewrite Z.eqb_eq. split.
      * intros H; now exists resp.
      * intros (resp' & [= <-] & H); exact H.
    + split; [discriminate|]. intros (resp & H & _); discriminate H.
  - unfold change_ip_events. destruct (w (asked m)) as [resp|e].
    + intros ->. right. apply in_or_app. right. now left.
    + intros _. right. now left.
Qed.

(** C7 as stated fails: 201 is a 2xx status, and [change_ip] returns
    [False] on it. *)
Lemma C7_status_201_is_refused :
  200 <= status_code (Response 201 "") < 300 /\
  fst (change_ip cfg0 "203.0.113.10" "198.51.100.2"
                 (fun _ => Answered (Response 201 ""))
                 (Machine initial [] 0)) = inl false.
Proof. split; [cbn; lia | reflexivity]. Qed.

Lemma C7_true_iff_status_200_witness :
  exists b tl,
    change_ip cfg0 "203.0.113.10" "198.51.100.2" w_ok (Machine initial [] 0) =
      (inl b, Machine initial ([] ++ tl) 1) /\
    (b = true <->
     exists resp, w_ok 0%nat = Answered resp /\ status_code resp = 200) /\
    switch_calls tl = [switch_call cfg0 "198.51.100.2" "203.0.113.10"] /\
    (b = false ->
     In (Print (log_line 2 ("Could not change target of " ++ "203.0.113.10"))) tl).
Proof.
  exact (C7_true_iff_status_200 cfg0 "203.0.113.10" "198.51.100.2" w_ok
                                (Machine initial [] 0)).
Defined.

(** ** Substrings and the resolver *)

Lemma prefix_spec s : forall t,
  prefix s t = true <-> exists post, t = s ++ post.
Proof.
  induction s as [|a s IH]; intros t.
  - split; [intros _; now exists t|]. intros _. now destruct t.
  - destruct t as [|b t]; cbn [prefix].
    + split; [discriminate|]. intros (post & H); discriminate H.
    + destruct (ascii_dec a b) as [->|Hab].
      * rewrite IH. split; intros (post & H); exists post.
        -- change (String b t = String b (s ++ post)). now rewrite H.
        -- change (String b t = String b (s ++ post)) in H. now injection H.
      * split; [discriminate|]. intros (post & H).
        change (String b t = String a (s ++ post)) in H. congruence.
Qed.

Lemma contains_spec s t :
  contains s t = true <-> exists pre post, t = pre ++ s ++ post.
Proof.
  induction t as [|b t IH]; cbn [contains].
  - destruct (prefix s "") eqn:Hp.
    + split; [intros _|reflexivity].
      apply prefix_spec in Hp. destruct Hp as (post & H). now exists "", post.
    + split; [discriminate|]. intros (pre & post & H).
      destruct pre as [|c pre]; [|discriminate H].
      change ("" = s ++ post) in H.
      assert (prefix s "" = true) by (apply prefix_spec; now exists post).
      congruence.
  - destruct (prefix s (String b t)) eqn:Hp.
    + split; [intros _|reflexivity].
      apply prefix_spec in Hp. destruct Hp as (post & H). now exists "", post.
    + rewrite IH. split.
      * intros (pre & post & H). exists (String b pre), post.
        change (String b t = String b (pre ++ s ++ post)). now rewrite H.
      * intros (pre & post & H). destruct pre as [|c pre].
        -- change (String b t = s ++ post) in H.
           assert (prefix s (String b t) = true)
             by (apply prefix_spec; now exists post).
           congruence.
        -- change (String b t = String c (pre ++ s ++ post)) in H.
           injection H as _ H. now exists pre, post.
Qed.

(** The loop of the resolver, started on any list collected so far. *)
Lemma resolver_loop host_ip data : forall acc,
  fold_left
    (fun failips obj =>
       match active_server_ip (failover obj) with
       | Some a =>
           if contains host_ip a then (failips ++ [ip (failover obj)])%list
           else failips
       | None => failips
       end)
    data acc
  = (acc ++ get_failover_of_host host_ip data)%list.
Proof.
  unfold get_failover_of_host.
  induction data as [|obj data IH]; intros acc; cbn [fold_left].
  - now rewrite app_nil_r.
  - rewrite IH. rewrite (IH (match active_server_ip (failover obj) with
                             | Some a => if contains host_ip a
                                         then ([] ++ [ip (failover obj)])%list
                                         else []
                             | None => []
                             end)).
    destruct (active_server_ip (failover obj)) as [a|];
      [destruct (contains host_ip a)|];
      cbn [app]; rewrite <- ?app_assoc; reflexivity.
Qed.

(** C8.  An address is in the result of the resolver exactly when it is the
    [ip] of an entry of the listing whose [active_server_ip] is not null and
    has the given address somewhere inside it. *)
Theorem C8_resolver_selects_by_substring host_ip data x :
  In x (get_failover_of_host host_ip data) <->
  exists obj a,
    In obj data /\
    ip (failover obj) = x /\
    active_server_ip (failover obj) = Some a /\
    exists pre post, a = pre ++ host_ip ++ post.
Proof.
  induction data as [|obj data IH].
  - cbn. split; [contradiction|]. intros (obj & a & [] & _).
  - unfold get_failover_of_host. cbn [fold_left]. rewrite resolver_loop.
    rewrite in_app_iff, IH. split.
    + intros [H|(obj' & a & Hin & Hip & Ha & Hs)].
      * destruct (active_server_ip (failover obj)) as [a|] eqn:Ha; [|contradiction].
        destruct (contains host_ip a) eqn:Hc; [|contradiction].
        destruct H as [H|[]]. exists obj, a.
        repeat split; [now left|exact H|exact Ha|now apply contains_spec].
      * exists obj', a. repeat split; [now right|assumption..].
    + intros (obj' & a & [<-|Hin] & Hip & Ha & Hs).
      * left. rewrite Ha. apply contains_spec in Hs. rewrite Hs. now left.
      * right. now exists obj', a.
Qed.

(** The sharp edge of the substring test: an entry routed to 10.0.0.12 is
    taken for one routed to 10.0.0.1; an entry with a null target and one
    routed elsewhere are left out. *)
Example resolver_takes_longer_address :
  get_failover_of_host "10.0.0.1"
    [Obj (FailoverEntry "203.0.113.10" (Some "10.0.0.12"));
     Obj (FailoverEntry "203.0.113.11" None);
     Obj (FailoverEntry "203.0.113.12" (Some "10.0.0.2"));
     Obj (FailoverEntry "203.0.113.13" (Some "10.0.0.1"))]
  = ["203.0.113.10"; "203.0.113.13"].
Proof. reflexivity. Qed.

(** ** Order of the phase assignment and the batch *)

Lemma switch_after_phase_store_app t1 t2 :
  no_phase_store t1 = true ->
  switch_after_phase_store (t1 ++ t2) = switch_after_phase_store t2.
Proof.
  induction t1 as [|e t1 IH]; cbn; [reflexivity|].
  destruct e; (discriminate || exact IH).
Qed.

Lemma no_phase_store_app t1 t2 :
  no_phase_store (t1 ++ t2) = no_phase_store t1 && no_phase_store t2.
Proof.
  induction t1 as [|e t1 IH]; cbn; [reflexivity|].
  destruct e; (reflexivity || exact IH).
Qed.

Lemma no_phase_store_batch cfg target w ips : forall k,
  no_phase_store (batch_events cfg target w k ips) = true.
Proof.
  induction ips as [|ip ips IH]; intros k; cbn [batch_events]; [reflexivity|].
  rewrite no_phase_store_app, IH, andb_true_r.
  unfold change_ip_events.
  destruct (w k); [destruct (verbose cfg)|]; reflexivity.
Qed.

Lemma no_phase_store_seen_up cfg tg lc :
  no_phase_store (seen_up_events cfg tg lc) = true.
Proof.
  unfold seen_up_events, probe.
  destruct (verbose cfg), (lc =? 15); reflexivity.
Qed.

Lemma no_switch_before_without_store tr :
  no_phase_store tr = true -> switch_before_phase_store tr = false.
Proof.
  induction tr as [|e tr IH]; cbn; [reflexivity|].
  destruct e as [r| | | | |]; try exact IH; try discriminate.
  intros H. destruct (meth r); [now apply IH|].
  rewrite H. cbn. now apply IH.
Qed.

(** C9 (as amended).  Both transition cycles send the whole batch and leave
    [down] at its new value.  When the loop switches back (DOWN to UP) no
    switch request follows the assignment to [down]: the batch comes first.
    When it fails over (UP to DOWN) no switch request precedes the
    assignment: [down = True] comes first and the batch follows in the same
    cycle. *)
Theorem C9_phase_store_and_batch cfg tg w r lc :
  2 < r ->
  (answered (primary_probe w) = true ->
   switch_after_phase_store (trace (cycle cfg tg w (Locals r true lc))) = false /\
   switch_calls (trace (cycle cfg tg w (Locals r true lc))) =
     map (switch_call cfg (host_ip tg)) (failips tg) /\
   down (final (cycle cfg tg w (Locals r true lc))) = false) /\
  (answered (primary_probe w) = false ->
   answered (backup_probe w) = true ->
   switch_before_phase_store (trace (cycle cfg tg w (Locals r false lc))) = false /\
   switch_calls (trace (cycle cfg tg w (Locals r false lc))) =
     map (switch_call cfg (backup_ip tg)) (failips tg) /\
   down (final (cycle cfg tg w (Locals r false lc))) = true).
Proof.
  intros Hr. split.
  - intros Hp. rewrite cycle_down_ok_switch by assumption.
    unfold trace, final; cbn [fst snd]. repeat split.
    + rewrite switch_after_phase_store_app by apply no_phase_store_seen_up.
      rewrite switch_after_phase_store_app by reflexivity.
      rewrite switch_after_phase_store_app by apply no_phase_store_batch.
      reflexivity.
    + rewrite !switch_calls_app, switch_calls_seen_up, switch_calls_batch.
      cbn. now rewrite !app_nil_r.
  - intros Hp Hb. rewrite cycle_up_fail_switch by assumption.
    unfold trace, final; cbn [fst snd]. repeat split.
    + cbn [app switch_before_phase_store probe meth].
      apply no_switch_before_without_store.
      now rewrite no_phase_store_app, no_phase_store_batch.
    + rewrite !switch_calls_app, switch_calls_batch. cbn.
      now rewrite !app_nil_r.
Qed.

(** C9 as stated fails for the failover: the cycle changes the phase, and
    its switch requests come after the assignment to [down]. *)
Lemma C9_failover_stores_phase_first :
  answered (primary_probe w_fail) = false /\
  answered (backup_probe w_fail) = true /\
  down (final (cycle cfg0 tg0 w_fail (Locals 3 false 0))) = true /\
  switch_after_phase_store (trace (cycle cfg0 tg0 w_fail (Locals 3 false 0))) = true.
Proof. repeat split. Qed.

Lemma C9_phase_store_and_batch_witness :
  (switch_after_phase_store (trace (cycle cfg0 tg0 w_ok (Locals 3 true 0))) = false /\
   switch_calls (trace (cycle cfg0 tg0 w_ok (Locals 3 true 0))) =
     map (switch_call cfg0 (host_ip tg0)) (failips tg0) /\
   down (final (cycle cfg0 tg0 w_ok (Locals 3 true 0))) = false) /\
  (switch_before_phase_store (trace (cycle cfg0 tg0 w_fail (Locals 3 false 0))) = false /\
   switch_calls (trace (cycle cfg0 tg0 w_fail (Locals 3 false 0))) =
     map (switch_call cfg0 (backup_ip tg0)) (failips tg0) /\
   down (final (cycle cfg0 tg0 w_fail (Locals 3 false 0))) = true).
Proof.
  destruct (C9_phase_store_and_batch cfg0 tg0 w_ok 3 0 ltac:(lia)) as [Ha _].
  destruct (C9_phase_store_and_batch cfg0 tg0 w_fail 3 0 ltac:(lia)) as [_ Hb].
  split.
  - apply Ha; reflexivity.
  - apply Hb; reflexivity.
Defined.

(** The failing cycle in full: [down] is assigned before the first POST. *)
Example failover_stores_phase_first :
  trace (cycle cfg0 tg0 w_fail (Locals 3 false 0)) =
  [probe cfg0 (main_check_url tg0); probe cfg0 (back_check_url tg0);
   Print (log_line 2 (host cfg0 ++ " is down! Switching failover"));
   Store_down true; Store_loopcount 0;
   Http (Request POST (hetzner_api cfg0 ++ "failover/203.0.113.10")
                 (Some "active_server_ip=198.51.100.2")
                 ("Basic " ++ hetzner_auth cfg0) true 60);
   Print (log_line 0 "Successfully changed 203.0.113.10 to 198.51.100.2");
   Http (Request POST (hetzner_api cfg0 ++ "failover/203.0.113.11")
                 (Some "active_server_ip=198.51.100.2")
                 ("Basic " ++ hetzner_auth cfg0) true 60);
   Print (log_line 0 "Successfully changed 203.0.113.11 to 198.51.100.2");
   Store_retry 0; Sleep 2].
Proof. reflexivity. Qed.

(** ** The retry counter *)

Lemma cycle_keeps_bound cfg tg w st :
  0 <= retry st <= 3 -> 0 <= retry (final (cycle cfg tg w st)) <= 3.
Proof.
  destruct st as [r d lc]; cbn [retry]; intros Hb.
  by_branch cfg tg w r d lc; lia.
Qed.

(** C10.  In every state the loop reaches from [retry = 0], [down = False],
    [retry] is between 0 and 3; and from such a state a cycle adds one to
    [retry] only if it was at most 2, and leaves it at 0 whenever it changes
    the phase. *)
Theorem C10_retry_bounded cfg tg st w :
  reachable cfg tg st ->
  0 <= retry st <= 3 /\
  (retry (final (cycle cfg tg w st)) = retry st + 1 -> retry st <= 2) /\
  (down (final (cycle cfg tg w st)) <> down st ->
   retry (final (cycle cfg tg w st)) = 0).
Proof.
  intros Hreach.
  assert (Hb : 0 <= retry st <= 3).
  { induction Hreach as [|st0 w0 _ IH _]; [cbn; lia|].
    now apply cycle_keeps_bound. }
  split; [exact Hb|].
  destruct st as [r d lc]; cbn [retry down] in *.
  by_branch cfg tg w r d lc; split; intros; try lia; congruence.
Qed.

Lemma C10_retry_bounded_witness :
  0 <= retry (final (cycle cfg0 tg0 w_fail initial)) <= 3 /\
  (retry (final (cycle cfg0 tg0 w_fail (final (cycle cfg0 tg0 w_fail initial))))
   = retry (final (cycle cfg0 tg0 w_fail initial)) + 1 ->
   retry (final (cycle cfg0 tg0 w_fail initial)) <= 2) /\
  (down (final (cycle cfg0 tg0 w_fail (final (cycle cfg0 tg0 w_fail initial))))
   <> down (final (cycle cfg0 tg0 w_fail initial)) ->
   retry (final (cycle cfg0 tg0 w_fail (final (cycle cfg0 tg0 w_fail initial)))) = 0).
Proof.
  apply (C10_retry_bounded cfg0 tg0 (final (cycle cfg0 tg0 w_fail initial)) w_fail).
  apply (reach_cycle cfg0 tg0 initial w_fail); [apply reach_initial | reflexivity].
Defined.

(** ** Further properties of the loop *)

Lemma probes_app t1 t2 : probes (t1 ++ t2) = (probes t1 ++ probes t2)%list.
Proof.
  induction t1 as [|e t1 IH]; cbn; [reflexivity|].
  destruct e as [r| | | | |]; try exact IH.
  destruct (meth r); cbn; now rewrite IH.
Qed.

Lemma sleeps_app t1 t2 : sleeps (t1 ++ t2) = (sleeps t1 ++ sleeps t2)%list.
Proof.
  induction t1 as [|e t1 IH]; cbn; [reflexivity|].
  destruct e; cbn; now rewrite ?IH.
Qed.

Lemma probes_batch cfg target w ips : forall k,
  probes (batch_events cfg target w k ips) = [].
Proof.
  induction ips as [|ip ips IH]; intros k; cbn [batch_events]; [reflexivity|].
  rewrite probes_app, IH, app_nil_r. unfold change_ip_events.
  destruct (w k); [destruct (verbose cfg)|]; reflexivity.
Qed.

Lemma sleeps_batch cfg target w ips : forall k,
  sleeps (batch_events cfg target w k ips) = [].
Proof.
  induction ips as [|ip ips IH]; intros k; cbn [batch_events]; [reflexivity|].
  rewrite sleeps_app, IH, app_nil_r. unfold change_ip_events.
  destruct (w k); [destruct (verbose cfg)|]; reflexivity.
Qed.

Lemma probes_seen_up cfg tg lc :
  probes (seen_up_events cfg tg lc) = [main_check_url tg].
Proof.
  unfold seen_up_events, probe. destruct (verbose cfg), (lc =? 15); reflexivity.
Qed.

Lemma sleeps_seen_up cfg tg lc : sleeps (seen_up_events cfg tg lc) = [].
Proof.
  unfold seen_up_events, probe. destruct (verbose cfg), (lc =? 15); reflexivity.
Qed.

Ltac read_trace :=
  rewrite ?probes_app, ?sleeps_app, ?switch_calls_app,
    ?probes_seen_up, ?sleeps_seen_up, ?switch_calls_seen_up,
    ?probes_batch, ?sleeps_batch, ?switch_calls_batch;
  cbn [probes sleeps switch_calls probe meth url app];
  rewrite ?app_nil_r.

Ltac leb_facts :=
  repeat match goal with
         | H : _ <= _ |- _ => apply Z.leb_le in H
         | H : _ < _ |- _ => apply Z.ltb_lt in H
         end.

(** X1.  The body raises in one situation only, and then it is the
    [NameError] of line 200; in every other situation the cycle runs to its
    end. *)
Theorem cycle_raises_only_at_stride cfg tg w st :
  ended (cycle cfg tg w st) =
  if both_unreachable w st then inr (NameError "stride") else inl tt.
Proof.
  destruct st as [r d lc]. unfold both_unreachable. cbn [down retry].
  by_branch cfg tg w r d lc; cbn [negb andb];
    try reflexivity;
    first [ apply Z.ltb_lt in Hr; rewrite Hr; reflexivity
          | assert (H2 : (2 <? r) = false) by (apply Z.ltb_ge; lia);
            rewrite H2; reflexivity ].
Qed.

(** X2.  From phase UP a cycle leaves the phase DOWN exactly when the
    threshold was passed, the probe of the main host failed and the probe of
    the backup made in that cycle was answered. *)
Theorem failover_needs_answering_backup cfg tg w st :
  down st = false ->
  (down (final (cycle cfg tg w st)) = true <->
   2 < retry st /\
   answered (primary_probe w) = false /\
   answered (backup_probe w) = true).
Proof.
  destruct st as [r d lc]. cbn [down retry]. intros Hd.
  by_branch cfg tg w r d lc; try discriminate Hd; split;
    try discriminate; try (intros (? & ? & ?); (discriminate || lia));
    try (intros _; repeat split; (reflexivity || lia)).
Qed.

(** X3.  From phase DOWN a cycle leaves the phase UP exactly when the
    threshold was passed and the probe of the main host was answered; the
    backup is not asked. *)
Theorem failback_needs_answering_primary cfg tg w st :
  down st = true ->
  (down (final (cycle cfg tg w st)) = false <->
   2 < retry st /\ answered (primary_probe w) = true).
Proof.
  destruct st as [r d lc]. cbn [down retry]. intros Hd.
  by_branch cfg tg w r d lc; try discriminate Hd; split;
    try discriminate; try (intros (? & ?); (discriminate || lia));
    try (intros _; repeat split; (reflexivity || lia)).
Qed.

(** X4.  Every cycle probes the main host first.  It probes the backup as
    well, once, exactly when it is in phase UP with the threshold passed
    and the main host did not answer; no other address is ever probed. *)
Theorem backup_probed_only_at_threshold cfg tg w st :
  probes (trace (cycle cfg tg w st)) =
  main_check_url tg
  :: (if negb (down st) && (2 <? retry st) && negb (answered (primary_probe w))
      then [back_check_url tg] else []).
Proof.
  destruct st as [r d lc]. cbn [down retry].
  by_branch cfg tg w r d lc; cbn [negb andb]; read_trace;
    try reflexivity;
    first [ apply Z.ltb_lt in Hr; rewrite Hr; reflexivity
          | assert (H2 : (2 <? r) = false) by (apply Z.ltb_ge; lia);
            rewrite H2; reflexivity ].
Qed.

Lemma last_app_cons {A} (l1 l2 : list A) (x d : A) :
  last (l1 ++ x :: l2) d = last (x :: l2) d.
Proof.
  induction l1 as [|a l1 IH]; [reflexivity|].
  cbn [app]. rewrite <- IH. cbn [last].
  destruct (l1 ++ x :: l2)%list eqn:E; [|reflexivity].
  now destruct l1.
Qed.

Lemma last_skip {A} (x y d : A) (l : list A) :
  last (x :: y :: l) d = last (y :: l) d.
Proof. reflexivity. Qed.

Lemma last_cons_app {A} (x y d : A) (l1 l2 : list A) :
  last (x :: l1 ++ y :: l2) d = last (y :: l2) d.
Proof. exact (last_app_cons (x :: l1) l2 y d). Qed.

(** X5.  A cycle that runs to its end sleeps once, for 2 seconds, as the
    last thing it does; the cycle that raises does not sleep. *)
Theorem cycle_sleeps_once_at_end cfg tg w st :
  sleeps (trace (cycle cfg tg w st)) =
    (if both_unreachable w st then [] else [2]) /\
  (both_unreachable w st = false ->
   last (trace (cycle cfg tg w st)) (Sleep 0) = Sleep 2).
Proof.
  destruct st as [r d lc]. unfold both_unreachable. cbn [down retry].
  by_branch cfg tg w r d lc; cbn [negb andb]; read_trace.
  all: try (assert (H2 : (2 <? r) = false) by (apply Z.ltb_ge; lia);
            rewrite H2).
  all: try (apply Z.ltb_lt in Hr; rewrite Hr).
  all: split; [reflexivity|]; try discriminate; intros _.
  all: repeat first [rewrite last_app_cons | rewrite last_cons_app
                    | rewrite last_skip];
    reflexivity.
Qed.

Lemma loopcount_kept cfg tg w st :
  0 <= loopcount st <= 15 -> 0 <= loopcount (final (cycle cfg tg w st)) <= 15.
Proof.
  destruct st as [r d lc]; cbn [loopcount]; intros Hb.
  by_branch cfg tg w r d lc; unfold after_notice;
    try destruct (lc =? 15) eqn:E; try apply Z.eqb_neq in E; lia.
Qed.

(** X6.  In every state the loop reaches, [loopcount] is between 0 and
    15. *)
Theorem loopcount_bounded cfg tg st :
  reachable cfg tg st -> 0 <= loopcount st <= 15.
Proof.
  induction 1 as [|st w _ IH _]; [cbn; lia|]. now apply loopcount_kept.
Qed.

Lemma loopcount_bounded_witness :
  0 <= loopcount (final (cycle cfg0 tg0 w_ok initial)) <= 15.
Proof.
  apply (loopcount_bounded cfg0 tg0 (final (cycle cfg0 tg0 w_ok initial))).
  apply (reach_cycle cfg0 tg0 initial w_ok); [apply reach_initial | reflexivity].
Defined.

Section Streaks.

Variable cfg : config.
Variable tg : targets.

(** X7.  From phase UP with [k] failures counted, as long as the main host
    never fails more than 3 times in a row, the loop stays in phase UP,
    completes every cycle and sends no switch request, however long it
    runs and whatever the backup does. *)
Theorem no_failover_within_three_failures ws : forall k lc,
  (k <= 3)%nat ->
  within_streak k ws = true ->
  ended (run cfg tg ws (Locals (Z.of_nat k) false lc)) = None /\
  down (final (run cfg tg ws (Locals (Z.of_nat k) false lc))) = false /\
  switch_calls (trace (run cfg tg ws (Locals (Z.of_nat k) false lc))) = [].
Proof.
  induction ws as [|w ws IH]; intros k lc Hk Hs; [now cbn|].
  cbn [within_streak] in Hs. cbn [run].
  destruct (answered (primary_probe w)) eqn:Hp.
  - rewrite cycle_up_ok by assumption.
    destruct (IH 0%nat (after_notice lc + 1) ltac:(lia) Hs) as (He & Hd & Ht).
    change (Z.of_nat 0) with 0 in *.
    destruct (run cfg tg ws (Locals 0 false (after_notice lc + 1)))
      as [[e st] tr].
    unfold ended, final, trace in *; cbn [fst snd] in *.
    repeat split; try assumption.
    rewrite !switch_calls_app, switch_calls_seen_up, Ht. reflexivity.
  - apply andb_true_iff in Hs. destruct Hs as [Hlt Hs].
    apply Nat.ltb_lt in Hlt.
    rewrite cycle_up_fail_count by (assumption || lia).
    destruct (IH (S k) lc ltac:(lia) Hs) as (He & Hd & Ht).
    replace (Z.of_nat k + 1) with (Z.of_nat (S k)) by lia.
    destruct (run cfg tg ws (Locals (Z.of_nat (S k)) false lc)) as [[e st] tr].
    unfold ended, final, trace in *; cbn [fst snd] in *.
    repeat split; assumption.
Qed.

Lemma counting_answered ws : forall r lc,
  r + Z.of_nat (answered_probes ws) <= 3 ->
  ended (run cfg tg ws (Locals r true lc)) = None /\
  retry (final (run cfg tg ws (Locals r true lc))) =
    r + Z.of_nat (answered_probes ws) /\
  down (final (run cfg tg ws (Locals r true lc))) = true /\
  switch_calls (trace (run cfg tg ws (Locals r true lc))) = [].
Proof.
  unfold answered_probes.
  induction ws as [|w ws IH]; intros r lc Hr.
  - cbn. now rewrite Z.add_0_r.
  - cbn [filter] in *. cbn [run].
    destruct (answered (primary_probe w)) eqn:Hp.
    + cbn [List.length] in *. rewrite Nat2Z.inj_succ in *.
      rewrite cycle_down_ok_count by (assumption || lia).
      destruct (IH (r + 1) (after_notice lc + 1) ltac:(lia)) as (He & Hs & Hd & Ht).
      destruct (run cfg tg ws (Locals (r + 1) true (after_notice lc + 1)))
        as [[e st] tr].
      unfold ended, final, trace in *; cbn [fst snd] in *.
      repeat split; try assumption; [lia|].
      rewrite !switch_calls_app, switch_calls_seen_up, Ht. reflexivity.
    + rewrite cycle_down_fail by assumption.
      destruct (IH r lc Hr) as (He & Hs & Hd & Ht).
      destruct (run cfg tg ws (Locals r true lc)) as [[e st] tr].
      unfold ended, final, trace in *; cbn [fst snd] in *.
      repeat split; assumption.
Qed.

(** X8.  In phase DOWN the answered probes need not come in a row: failed
    probes in between leave the count alone.  Starting with [retry] at 0,
    after cycles of which exactly 3 had the main host answering the phase
    is still DOWN with nothing switched, and the next answered probe
    switches every entry of [failips] back to the main address. *)
Theorem failback_counts_all_answered_probes ws w4 lc :
  answered_probes ws = 3%nat ->
  answered (primary_probe w4) = true ->
  (down (final (run cfg tg ws (Locals 0 true lc))) = true /\
   switch_calls (trace (run cfg tg ws (Locals 0 true lc))) = []) /\
  ended (run cfg tg (ws ++ [w4]) (Locals 0 true lc)) = None /\
  final (run cfg tg (ws ++ [w4]) (Locals 0 true lc)) = Locals 0 false 1 /\
  switch_calls (trace (run cfg tg (ws ++ [w4]) (Locals 0 true lc))) =
    map (switch_call cfg (host_ip tg)) (failips tg).
Proof.
  intros H3 Hp.
  destruct (counting_answered ws 0 lc ltac:(lia)) as (He & Hr & Hd & Ht).
  split; [now split|].
  rewrite run_app.
  destruct (run cfg tg ws (Locals 0 true lc)) as [[e [r d lc']] tr].
  unfold ended, final, trace in *; cbn [fst snd retry down] in *. subst e r d.
  rewrite H3. cbn [run].
  rewrite cycle_down_ok_switch by (assumption || (cbn; lia)).
  cbn [fst snd]. repeat split.
  rewrite !switch_calls_app, Ht, switch_calls_seen_up, switch_calls_batch.
  cbn. now rewrite !app_nil_r.
Qed.

(** X9.  A whole failover and back: 3 failed probes, a 4th with the backup
    answering, then 4 answered probes.  The run completes, ends in phase UP
    with [retry] at 0, and the switch requests sent are one per entry of
    [failips] to the backup address followed by one per entry to the main
    address, and no others. *)
Theorem failover_and_back ws1 w4 ws2 w8 lc :
  Forall (fun w => answered (primary_probe w) = false) ws1 ->
  List.length ws1 = 3%nat ->
  answered (primary_probe w4) = false ->
  answered (backup_probe w4) = true ->
  Forall (fun w => answered (primary_probe w) = true) ws2 ->
  List.length ws2 = 3%nat ->
  answered (primary_probe w8) = true ->
  ended (run cfg tg (ws1 ++ [w4] ++ ws2 ++ [w8]) (Locals 0 false lc)) = None /\
  final (run cfg tg (ws1 ++ [w4] ++ ws2 ++ [w8]) (Locals 0 false lc)) =
    Locals 0 false 1 /\
  switch_calls (trace (run cfg tg (ws1 ++ [w4] ++ ws2 ++ [w8]) (Locals 0 false lc))) =
    (map (switch_call cfg (backup_ip tg)) (failips tg)
     ++ map (switch_call cfg (host_ip tg)) (failips tg))%list.
Proof.
  intros Hf1 H1 Hp4 Hb4 Hf2 H2 Hp8.
  destruct (counting_failures cfg tg ws1 0 lc Hf1 ltac:(lia)) as (He1 & Hs1 & Ht1).
  destruct (counting_successes cfg tg ws2 0 0 Hf2 ltac:(lia))
    as (He2 & Hr2 & Hd2 & Ht2).
  rewrite run_app.
  destruct (run cfg tg ws1 (Locals 0 false lc)) as [[e1 st1] tr1].
  unfold ended, final, trace in *; cbn [fst snd] in *. subst e1 st1.
  rewrite H1. cbn [app run].
  rewrite cycle_up_fail_switch by (assumption || (cbn; lia)).
  rewrite run_app.
  destruct (run cfg tg ws2 (Locals 0 true 0)) as [[e2 [r2 d2 lc2]] tr2].
  cbn [fst snd retry down] in *. subst e2 r2 d2.
  rewrite H2. cbn [run].
  rewrite cycle_down_ok_switch by (assumption || (cbn; lia)).
  cbn [fst snd]. repeat split.
  rewrite !switch_calls_app, Ht1, Ht2, switch_calls_seen_up, !switch_calls_batch.
  cbn. now rewrite !app_nil_r.
Qed.

End Streaks.

Section Notice.

Variable cfg : config.
Variable tg : targets.

Lemma counting_good_checks ws : forall r lc,
  Forall (fun w => answered (primary_probe w) = true) ws ->
  0 <= lc ->
  lc + Z.of_nat (List.length ws) <= 15 ->
  ended (run cfg tg ws (Locals r false lc)) = None /\
  down (final (run cfg tg ws (Locals r false lc))) = false /\
  loopcount (final (run cfg tg ws (Locals r false lc))) =
    lc + Z.of_nat (List.length ws) /\
  ~ In (notice cfg) (trace (run cfg tg ws (Locals r false lc))).
Proof.
  induction ws as [|w ws IH]; intros r lc Hf H0 Hlc.
  - cbn. rewrite Z.add_0_r. repeat split. intros [].
  - inversion Hf as [|? ? Hw Hws]; subst.
    cbn [List.length] in *. rewrite Nat2Z.inj_succ in *.
    cbn [run]. rewrite cycle_up_ok by assumption.
    assert (Hne : (lc =? 15) = false) by (apply Z.eqb_neq; lia).
    unfold after_notice, seen_up_events. rewrite Hne.
    destruct (IH 0 (lc + 1) Hws ltac:(lia) ltac:(lia)) as (He & Hd & Hl & Hn).
    destruct (run cfg tg ws (Locals 0 false (lc + 1))) as [[e st] tr].
    unfold ended, final, trace in *; cbn [fst snd] in *.
    repeat split; [assumption|assumption|lia|].
    intros Hin. apply in_app_or in Hin. destruct Hin as [Hin|Hin]; [|now apply Hn].
    unfold notice, probe in Hin.
    destruct (verbose cfg); cbn in Hin;
      repeat (destruct Hin as [Hin|Hin]; try discriminate Hin);
      try contradiction.
Qed.

(** X10.  Starting with [loopcount] at 0 in phase UP, 15 answered probes
    in a row print no "was up for the last 15 checks" line and bring
    [loopcount] to 15; the line is printed by the 16th answered probe, which
    leaves [loopcount] at 1. *)
Theorem notice_on_sixteenth_check ws w16 r :
  Forall (fun w => answered (primary_probe w) = true) ws ->
  List.length ws = 15%nat ->
  answered (primary_probe w16) = true ->
  ~ In (notice cfg) (trace (run cfg tg ws (Locals r false 0))) /\
  loopcount (final (run cfg tg ws (Locals r false 0))) = 15 /\
  In (notice cfg)
     (trace (cycle cfg tg w16 (final (run cfg tg ws (Locals r false 0))))) /\
  loopcount (final (cycle cfg tg w16 (final (run cfg tg ws (Locals r false 0)))))
    = 1.
Proof.
  intros Hf H15 Hp.
  destruct (counting_good_checks ws r 0 Hf ltac:(lia) ltac:(lia))
    as (He & Hd & Hl & Hn).
  rewrite H15 in Hl. cbn in Hl.
  destruct (run cfg tg ws (Locals r false 0)) as [[e [r' d' lc']] tr].
  unfold ended, final, trace in *; cbn [fst snd down loopcount] in *.
  subst d' lc'.
  rewrite cycle_up_ok by assumption. cbn [fst snd loopcount].
  repeat split; [assumption|].
  unfold seen_up_events, notice. apply in_or_app. left.
  right. apply in_or_app. right. now left.
Qed.

End Notice.

Lemma no_failover_within_three_failures_witness :
  ended (run cfg0 tg0 [w_dead; w_dead; w_dead; w_ok; w_dead; w_dead; w_dead; w_ok]
             (Locals (Z.of_nat 0) false 0)) = None /\
  down (final (run cfg0 tg0
                   [w_dead; w_dead; w_dead; w_ok; w_dead; w_dead; w_dead; w_ok]
                   (Locals (Z.of_nat 0) false 0))) = false /\
  switch_calls (trace (run cfg0 tg0
                   [w_dead; w_dead; w_dead; w_ok; w_dead; w_dead; w_dead; w_ok]
                   (Locals (Z.of_nat 0) false 0))) = [].
Proof.
  apply (no_failover_within_three_failures cfg0 tg0
           [w_dead; w_dead; w_dead; w_ok; w_dead; w_dead; w_dead; w_ok] 0 0);
    [lia | reflexivity].
Defined.

Lemma failback_counts_all_answered_probes_witness :
  (down (final (run cfg0 tg0 [w_ok; w_dead; w_ok; w_dead; w_dead; w_ok]
                    (Locals 0 true 0))) = true /\
   switch_calls (trace (run cfg0 tg0 [w_ok; w_dead; w_ok; w_dead; w_dead; w_ok]
                            (Locals 0 true 0))) = []) /\
  ended (run cfg0 tg0 ([w_ok; w_dead; w_ok; w_dead; w_dead; w_ok] ++ [w_ok])
             (Locals 0 true 0)) = None /\
  final (run cfg0 tg0 ([w_ok; w_dead; w_ok; w_dead; w_dead; w_ok] ++ [w_ok])
             (Locals 0 true 0)) = Locals 0 false 1 /\
  switch_calls (trace (run cfg0 tg0
                           ([w_ok; w_dead; w_ok; w_dead; w_dead; w_ok] ++ [w_ok])
                           (Locals 0 true 0))) =
    map (switch_call cfg0 (host_ip tg0)) (failips tg0).
Proof.
  apply (failback_counts_all_answered_probes cfg0 tg0
           [w_ok; w_dead; w_ok; w_dead; w_dead; w_ok] w_ok 0);
    reflexivity.
Defined.

Lemma failover_and_back_witness :
  ended (run cfg0 tg0 ([w_dead; w_dead; w_dead] ++ [w_fail] ++ [w_ok; w_ok; w_ok] ++ [w_ok])
             (Locals 0 false 0)) = None /\
  final (run cfg0 tg0 ([w_dead; w_dead; w_dead] ++ [w_fail] ++ [w_ok; w_ok; w_ok] ++ [w_ok])
             (Locals 0 false 0)) = Locals 0 false 1 /\
  switch_calls (trace (run cfg0 tg0
             ([w_dead; w_dead; w_dead] ++ [w_fail] ++ [w_ok; w_ok; w_ok] ++ [w_ok])
             (Locals 0 false 0))) =
    (map (switch_call cfg0 (backup_ip tg0)) (failips tg0)
     ++ map (switch_call cfg0 (host_ip tg0)) (failips tg0))%list.
Proof.
  apply (failover_and_back cfg0 tg0 [w_dead; w_dead; w_dead] w_fail
                           [w_ok; w_ok; w_ok] w_ok 0);
    first [reflexivity | repeat constructor].
Defined.

Lemma failover_needs_answering_backup_witness :
  down (final (cycle cfg0 tg0 w_fail (Locals 3 false 0))) = true <->
  2 < retry (Locals 3 false 0) /\
  answered (primary_probe w_fail) = false /\
  answered (backup_probe w_fail) = true.
Proof.
  apply (failover_needs_answering_backup cfg0 tg0 w_fail (Locals 3 false 0)).
  reflexivity.
Defined.

Lemma failback_needs_answering_primary_witness :
  down (final (cycle cfg0 tg0 w_ok (Locals 3 true 0))) = false <->
  2 < retry (Locals 3 true 0) /\ answered (primary_probe w_ok) = true.
Proof.
  apply (failback_needs_answering_primary cfg0 tg0 w_ok (Locals 3 true 0)).
  reflexivity.
Defined.

Lemma cycle_sleeps_once_at_end_witness :
  last (trace (cycle cfg0 tg0 w_fail (Locals 3 false 0))) (Sleep 0) = Sleep 2.
Proof.
  apply (proj2 (cycle_sleeps_once_at_end cfg0 tg0 w_fail (Locals 3 false 0))).
  reflexivity.
Defined.

(** ** The start of [main] *)

Example replace_in_template :
  replace "https://<hostname>:8443/stats?x=<hostname>" "<hostname>" "198.51.100.1"
  = "https://198.51.100.1:8443/stats?x=198.51.100.1".
Proof. reflexivity. Qed.

Ltac run_start :=
  cbv [startup find_ip get_host_ip get_failover_of_host_call get_ips
       nbind nret nraise lift try_except_Exception socket_gethostbyname
       sys_exit is_Exception api_request requests_call when log emit
       set_retry set_down set_loopcount ret bind str_err];
  cbn [vars io asked fst snd retry down loopcount].

Section StartupRuns.

Variable cfg : config.
Variable json_loads : string -> decoded.
Variable requests_str : requests_error -> string.
Variable list_str : list string -> string.
Variable W : world.

Lemma find_ip_found h a m :
  gethostbyname W h = inl a ->
  find_ip cfg requests_str h W m =
  (inl (a, replace (haproxy_url cfg) "<hostname>" a),
   Machine (vars m)
           (io m ++ [Print (log_line 0 (h ++ " - IP address found: " ++ a))])
           (asked m)).
Proof. intros H. run_start. rewrite H. reflexivity. Qed.

Lemma find_ip_failed h msg m :
  gethostbyname W h = inr msg ->
  find_ip cfg requests_str h W m =
  (inr (SystemExit 1),
   Machine (vars m) (io m ++ lookup_failed_lines cfg h msg) (asked m)).
Proof.
  intros H. unfold lookup_failed_lines. run_start. rewrite H.
  destruct (verbose cfg); cbn [vars io asked fst snd];
    rewrite <- ?app_assoc; reflexivity.
Qed.

Lemma startup_without_host msg m :
  gethostbyname W (host cfg) = inr msg ->
  startup cfg json_loads requests_str list_str W m =
  (inr (SystemExit 1),
   Machine (vars m)
           (io m ++ banner :: lookup_failed_lines cfg (host cfg) msg)
           (asked m)).
Proof.
  intros H. unfold startup. unfold nbind at 1. unfold nbind at 1.
  unfold lift at 1, log at 1, emit at 1.
  rewrite find_ip_failed with (msg := msg) by exact H.
  cbn [vars io asked]. rewrite <- app_assoc. reflexivity.
Qed.

Lemma startup_without_backup hip msg m :
  gethostbyname W (host cfg) = inl hip ->
  gethostbyname W (backup cfg) = inr msg ->
  startup cfg json_loads requests_str list_str W m =
  (inr (SystemExit 1),
   Machine (vars m)
           (io m ++ banner :: found_line (host cfg) hip
                 :: lookup_failed_lines cfg (backup cfg) msg)
           (asked m)).
Proof.
  intros H1 H2. unfold startup. unfold nbind at 1. unfold nbind at 1.
  unfold lift at 1, log at 1, emit at 1.
  rewrite find_ip_found with (a := hip) by exact H1.
  unfold nbind at 1.
  rewrite find_ip_failed with (msg := msg) by exact H2.
  cbn [vars io asked]. rewrite <- !app_assoc. reflexivity.
Qed.

Lemma startup_without_listing hip bip msg m :
  gethostbyname W (host cfg) = inl hip ->
  gethostbyname W (backup cfg) = inl bip ->
  listing_outcome json_loads requests_str hip (net W (asked m)) = inr msg ->
  startup cfg json_loads requests_str list_str W m =
  (inr (SystemExit 1),
   Machine (vars m)
           (io m ++ banner :: found_line (host cfg) hip
                 :: found_line (backup cfg) bip
                 :: listing_request cfg :: listing_failed_lines cfg msg)
           (S (asked m))).
Proof.
  intros H1 H2 H3. unfold startup. unfold nbind at 1. unfold nbind at 1.
  unfold lift at 1, log at 1, emit at 1.
  rewrite find_ip_found with (a := hip) by exact H1.
  unfold nbind at 1.
  rewrite find_ip_found with (a := bip) by exact H2.
  unfold nbind at 1. unfold listing_outcome in H3.
  run_start. unfold listing_failed_lines, listing_request, found_line, banner.
  destruct (net W (asked m)) as [resp|e].
  - destruct (json_loads (text resp)) as [data|msg'].
    + destruct (get_failover_of_host hip data) as [|ip0 ips]; [|discriminate H3].
      injection H3 as <-.
      destruct (verbose cfg); cbn [vars io asked fst snd];
        rewrite <- ?app_assoc; reflexivity.
    + injection H3 as <-.
      destruct (verbose cfg); cbn [vars io asked fst snd];
        rewrite <- ?app_assoc; reflexivity.
  - injection H3 as <-.
    destruct (verbose cfg); cbn [vars io asked fst snd];
      rewrite <- ?app_assoc; reflexivity.
Qed.

Lemma startup_through hip bip ips m :
  gethostbyname W (host cfg) = inl hip ->
  gethostbyname W (backup cfg) = inl bip ->
  listing_outcome json_loads requests_str hip (net W (asked m)) = inl ips ->
  startup cfg json_loads requests_str list_str W m =
  (inl (Targets hip bip
                (replace (haproxy_url cfg) "<hostname>" hip)
                (replace (haproxy_url cfg) "<hostname>" bip) ips),
   Machine initial (io m ++ startup_events cfg list_str hip bip ips)
           (S (asked m))).
Proof.
  intros H1 H2 H3. unfold startup. unfold nbind at 1. unfold nbind at 1.
  unfold lift at 1, log at 1, emit at 1.
  rewrite find_ip_found with (a := hip) by exact H1.
  unfold nbind at 1.
  rewrite find_ip_found with (a := bip) by exact H2.
  unfold nbind at 1. unfold listing_outcome in H3.
  run_start. unfold startup_events, listing_request, found_line, banner.
  destruct (net W (asked m)) as [resp|e]; [|discriminate H3].
  destruct (json_loads (text resp)) as [data|msg']; [|discriminate H3].
  destruct (get_failover_of_host hip data) as [|ip0 ips']; [discriminate H3|].
  injection H3 as <-.
  destruct (verbose cfg); cbn [vars io asked fst snd];
    rewrite <- ?app_assoc; reflexivity.
Qed.

End StartupRuns.



Section StartupClaims.

Variable cfg : config.
Variable json_loads : string -> decoded.
Variable requests_str : requests_error -> string.
Variable list_str : list string -> string.

(** X11.  The start of [main] gets through exactly when both host names
    resolve, the listing request is answered, the answer decodes to a
    listing, and at least one entry is routed to an address containing the
    main host's; the targets of the loop are then the two addresses, the
    two check urls made from the template, and those entries, in the order
    of the listing.  The status code of the answer plays no part. *)
Theorem startup_succeeds_iff W m tg :
  fst (startup cfg json_loads requests_str list_str W m) = inl tg <->
  exists hip bip resp data,
    gethostbyname W (host cfg) = inl hip /\
    gethostbyname W (backup cfg) = inl bip /\
    net W (asked m) = Answered resp /\
    json_loads (text resp) = Listing data /\
    get_failover_of_host hip data <> [] /\
    tg = Targets hip bip
                 (replace (haproxy_url cfg) "<hostname>" hip)
                 (replace (haproxy_url cfg) "<hostname>" bip)
                 (get_failover_of_host hip data).
Proof.
  destruct (gethostbyname W (host cfg)) as [hip|msg] eqn:H1.
  2:{ rewrite (startup_without_host _ _ _ _ _ msg m H1). cbn [fst].
      split; [discriminate|]. intros (? & ? & ? & ? & H & _); discriminate H. }
  destruct (gethostbyname W (backup cfg)) as [bip|msg] eqn:H2.
  2:{ rewrite (startup_without_backup _ _ _ _ _ hip msg m H1 H2). cbn [fst].
      split; [discriminate|].
      intros (? & ? & ? & ? & _ & H & _); discriminate H. }
  destruct (listing_outcome json_loads requests_str hip (net W (asked m)))
    as [ips|msg] eqn:H3.
  - rewrite (startup_through _ _ _ _ _ hip bip ips m H1 H2 H3). cbn [fst].
    unfold listing_outcome in H3.
    destruct (net W (asked m)) as [resp|e]; [|discriminate H3].
    destruct (json_loads (text resp)) as [data|msg'] eqn:Hj; [|discriminate H3].
    destruct (get_failover_of_host hip data) as [|ip0 ips'] eqn:Hg;
      [discriminate H3|]. injection H3 as <-.
    split.
    + intros [= <-]. exists hip, bip, resp, data.
      rewrite Hg. repeat split; try assumption. discriminate.
    + intros (hip' & bip' & resp' & data' & [= <-] & [= <-] & [= <-] & Hj' & _ & ->).
      rewrite Hj in Hj'. injection Hj' as <-. now rewrite Hg.
  - rewrite (startup_without_listing _ _ _ _ _ hip bip msg m H1 H2 H3). cbn [fst].
    split; [discriminate|].
    intros (hip' & bip' & resp' & data' & [= <-] & _ & Hn & Hj & Hne & _).
    unfold listing_outcome in H3. rewrite Hn, Hj in H3.
    destruct (get_failover_of_host hip data'); [now elim Hne|discriminate H3].
Qed.

(** X12.  However the start of [main] fails, it ends in [sys.exit(1)]: no
    other exception leaves it. *)
Theorem startup_fails_only_by_exit_1 W m :
  (exists tg, fst (startup cfg json_loads requests_str list_str W m) = inl tg) \/
  fst (startup cfg json_loads requests_str list_str W m) = inr (SystemExit 1).
Proof.
  destruct (gethostbyname W (host cfg)) as [hip|msg] eqn:H1.
  2:{ right. now rewrite (startup_without_host _ _ _ _ _ msg m H1). }
  destruct (gethostbyname W (backup cfg)) as [bip|msg] eqn:H2.
  2:{ right. now rewrite (startup_without_backup _ _ _ _ _ hip msg m H1 H2). }
  destruct (listing_outcome json_loads requests_str hip (net W (asked m)))
    as [ips|msg] eqn:H3.
  - left. eexists. now rewrite (startup_through _ _ _ _ _ hip bip ips m H1 H2 H3).
  - right. now rewrite (startup_without_listing _ _ _ _ _ hip bip msg m H1 H2 H3).
Qed.

(** X13.  The start of [main] sends no switch request and probes no check
    url.  It sends the listing request, once, when both host names
    resolve, and nothing at all when one of them does not. *)
Theorem startup_sends_only_the_listing_request W ws :
  switch_calls (trace (main cfg json_loads requests_str list_str W [])) = [] /\
  probes (trace (main cfg json_loads requests_str list_str W [])) =
    match gethostbyname W (host cfg), gethostbyname W (backup cfg) with
    | inl _, inl _ => [hetzner_api cfg ++ "failover"]
    | _, _ => []
    end /\
  (ended (main cfg json_loads requests_str list_str W ws) = Some (SystemExit 1) ->
   main cfg json_loads requests_str list_str W ws =
   main cfg json_loads requests_str list_str W []).
Proof.
  unfold main.
  destruct (gethostbyname W (host cfg)) as [hip|msg] eqn:H1.
  2:{ rewrite (startup_without_host _ _ _ _ _ msg _ H1).
      unfold trace, lookup_failed_lines, banner; cbn [snd io app].
      destruct (verbose cfg); repeat split. }
  destruct (gethostbyname W (backup cfg)) as [bip|msg] eqn:H2.
  2:{ rewrite (startup_without_backup _ _ _ _ _ hip msg _ H1 H2).
      unfold trace, lookup_failed_lines, banner, found_line; cbn [snd io app].
      destruct (verbose cfg); repeat split. }
  destruct (listing_outcome json_loads requests_str hip (net W 0%nat))
    as [ips|msg] eqn:H3.
  - rewrite (startup_through _ _ _ _ _ hip bip ips (Machine initial [] 0) H1 H2 H3).
    cbn [run vars io app]. unfold trace, ended; cbn [fst snd].
    unfold startup_events, listing_request, banner, found_line.
    repeat split.
    + destruct (verbose cfg); reflexivity.
    + destruct (verbose cfg); reflexivity.
    + destruct (run cfg _ ws initial) as [[[e|] st] tr]; discriminate.
  - rewrite (startup_without_listing _ _ _ _ _ hip bip msg (Machine initial [] 0) H1 H2 H3).
    unfold trace, listing_failed_lines, listing_request, banner, found_line;
      cbn [snd io app].
    destruct (verbose cfg); repeat split.
Qed.


End StartupClaims.

(** ** The check urls *)

Lemma replace_from_skips old new t : forall s,
  replace_from old new (String.length t) (t ++ s) = replace_from old new 0 s.
Proof.
  induction t as [|c t IH]; intros s; [reflexivity|].
  change (String c t ++ s) with (String c (t ++ s)).
  cbn [String.length replace_from]. apply IH.
Qed.

Lemma prefix_refl_app s t : prefix s (s ++ t) = true.
Proof. apply prefix_spec. now exists t. Qed.

Lemma replace_from_absent old new s :
  contains old s = false -> replace_from old new 0 s = s.
Proof.
  induction s as [|c s IH]; [reflexivity|].
  cbn [contains replace_from].
  destruct (prefix old (String c s)); [discriminate|].
  intros H. now rewrite IH.
Qed.

(** X15.  A string in which [old] does not occur comes back unchanged,
    whatever [new] is. *)
Theorem replace_without_occurrence old new s :
  contains old s = false -> replace s old new = s.
Proof. apply replace_from_absent. Qed.

(** X16.  In a template [pre ++ old ++ post] whose part before the
    placeholder does not contain the first character of the placeholder,
    the placeholder gives way to the address, the part before it is kept,
    and the part after it is treated in the same way. *)
Theorem replace_first_occurrence c old' new pre post :
  contains (String c "") pre = false ->
  replace (pre ++ String c old' ++ post) (String c old') new =
  pre ++ new ++ replace post (String c old') new.
Proof.
  unfold replace. induction pre as [|a pre IH]; intros Hpre.
  - change ("" ++ String c old' ++ post) with (String c (old' ++ post)).
    cbn [replace_from].
    change (String c (old' ++ post)) with (String c old' ++ post).
    rewrite prefix_refl_app.
    replace (String.length (String c old') - 1)%nat with (String.length old')
      by (cbn [String.length]; lia).
    now rewrite replace_from_skips.
  - cbn [contains prefix] in Hpre.
    destruct (ascii_dec c a) as [->|Hca].
    + now destruct pre.
    + change (String a pre ++ String c old' ++ post)
        with (String a (pre ++ String c old' ++ post)).
      cbn [replace_from prefix].
      destruct (ascii_dec c a) as [->|_]; [now elim Hca|].
      change (String a pre ++ new ++ replace_from (String c old') new 0 post)
        with (String a (pre ++ new ++ replace_from (String c old') new 0 post)).
      now rewrite IH.
Qed.

Lemma replace_first_occurrence_witness :
  replace ("https://" ++ "<hostname>" ++ ":8443/stats") "<hostname>" "198.51.100.1" =
  "https://" ++ "198.51.100.1" ++ replace ":8443/stats" "<hostname>" "198.51.100.1".
Proof.
  apply (replace_first_occurrence "<" "hostname>" "198.51.100.1"
                                  "https://" ":8443/stats").
  reflexivity.
Defined.

Lemma replace_without_occurrence_witness :
  replace "https://lb.example.org/stats" "<hostname>" "198.51.100.1" =
  "https://lb.example.org/stats".
Proof.
  apply (replace_without_occurrence "<hostname>" "198.51.100.1"
                                    "https://lb.example.org/stats").
  reflexivity.
Defined.

Section MoreStartupClaims.

Variable cfg : config.
Variable json_loads : string -> decoded.
Variable requests_str : requests_error -> string.
Variable list_str : list string -> string.

(** X17.  With a url template that lacks the placeholder, a start that
    gets through gives the loop the template itself for both check urls:
    the probe of the backup then asks the very address the probe of the
    main host asks. *)
Theorem checks_collapse_without_placeholder W m tg :
  contains "<hostname>" (haproxy_url cfg) = false ->
  fst (startup cfg json_loads requests_str list_str W m) = inl tg ->
  main_check_url tg = haproxy_url cfg /\
  back_check_url tg = haproxy_url cfg.
Proof.
  intros Hc Hs.
  destruct (gethostbyname W (host cfg)) as [hip|msg] eqn:H1.
  2:{ rewrite (startup_without_host _ _ _ _ _ msg m H1) in Hs. discriminate Hs. }
  destruct (gethostbyname W (backup cfg)) as [bip|msg] eqn:H2.
  2:{ rewrite (startup_without_backup _ _ _ _ _ hip msg m H1 H2) in Hs.
      discriminate Hs. }
  destruct (listing_outcome json_loads requests_str hip (net W (asked m)))
    as [ips|msg] eqn:H3.
  - rewrite (startup_through _ _ _ _ _ hip bip ips m H1 H2 H3) in Hs.
    injection Hs as <-. cbn [main_check_url back_check_url].
    unfold replace. now rewrite !replace_from_absent.
  - rewrite (startup_without_listing _ _ _ _ _ hip bip msg m H1 H2 H3) in Hs.
    discriminate Hs.
Qed.

(** X18.  Each way the start can fail leaves its error line in the output
    before the exit: the name of the main host not resolving, the name of
    the backup not resolving, and, with both resolved, anything going wrong
    with the listing. *)
Theorem startup_failure_is_logged W ws :
  ((exists msg, gethostbyname W (host cfg) = inr msg) ->
   In (Print (log_line 2 ("Could not find IP address of " ++ host cfg)))
      (trace (main cfg json_loads requests_str list_str W ws))) /\
  ((exists hip msg, gethostbyname W (host cfg) = inl hip /\
                    gethostbyname W (backup cfg) = inr msg) ->
   In (Print (log_line 2 ("Could not find IP address of " ++ backup cfg)))
      (trace (main cfg json_loads requests_str list_str W ws))) /\
  ((exists hip bip msg,
       gethostbyname W (host cfg) = inl hip /\
       gethostbyname W (backup cfg) = inl bip /\
       listing_outcome json_loads requests_str hip (net W 0%nat) = inr msg) ->
   In (Print (log_line 2 ("Could not get Failover IPs for " ++ host cfg)))
      (trace (main cfg json_loads requests_str list_str W ws))).
Proof.
  unfold main. repeat split.
  - intros (msg & H1).
    rewrite (startup_without_host _ _ _ _ _ msg _ H1).
    unfold trace, lookup_failed_lines; cbn [snd io app].
    destruct (verbose cfg); cbn; auto.
  - intros (hip & msg & H1 & H2).
    rewrite (startup_without_backup _ _ _ _ _ hip msg _ H1 H2).
    unfold trace, lookup_failed_lines; cbn [snd io app].
    destruct (verbose cfg); cbn; auto.
  - intros (hip & bip & msg & H1 & H2 & H3).
    rewrite (startup_without_listing _ _ _ _ _ hip bip msg
                                     (Machine initial [] 0) H1 H2 H3).
    unfold trace, listing_failed_lines; cbn [snd io app].
    destruct (verbose cfg); cbn; auto 10.
Qed.

End MoreStartupClaims.

(** ** The configuration *)


(** ** More on the resolver *)

(** X20.  The resolver returns the [ip] fields of the selected entries in
    the order of the listing, once per selected entry: an address listed
    twice comes out twice, and the result is never longer than the
    listing. *)
Theorem resolver_keeps_listing_order host_ip data :
  get_failover_of_host host_ip data =
    map (fun obj => ip (failover obj))
        (filter (fun obj =>
                   match active_server_ip (failover obj) with
                   | Some a => contains host_ip a
                   | None => false
                   end)
                data) /\
  (List.length (get_failover_of_host host_ip data) <= List.length data)%nat.
Proof.
  assert (Heq : get_failover_of_host host_ip data =
    map (fun obj => ip (failover obj))
        (filter (fun obj =>
                   match active_server_ip (failover obj) with
                   | Some a => contains host_ip a
                   | None => false
                   end)
                data)).
  { induction data as [|obj data IH]; [reflexivity|].
    unfold get_failover_of_host. cbn [fold_left filter].
    rewrite resolver_loop, IH.
    destruct (active_server_ip (failover obj)) as [a|];
      [destruct (contains host_ip a)|]; reflexivity. }
  split; [exact Heq|].
  rewrite Heq, length_map. apply filter_length_le.
Qed.

(** ** Instances *)

Lemma notice_on_sixteenth_check_witness :
  ~ In (notice cfg0) (trace (run cfg0 tg0 (repeat w_ok 15) (Locals 0 false 0))) /\
  loopcount (final (run cfg0 tg0 (repeat w_ok 15) (Locals 0 false 0))) = 15 /\
  In (notice cfg0)
     (trace (cycle cfg0 tg0 w_ok
                   (final (run cfg0 tg0 (repeat w_ok 15) (Locals 0 false 0))))) /\
  loopcount (final (cycle cfg0 tg0 w_ok
                   (final (run cfg0 tg0 (repeat w_ok 15) (Locals 0 false 0)))))
    = 1.
Proof.
  apply (notice_on_sixteenth_check cfg0 tg0 (repeat w_ok 15) w_ok 0);
    [cbn; repeat constructor | reflexivity | reflexivity].
Defined.

(** The start of [main] on the example world: both names resolve and two of
    the four listed addresses are routed to the main host. *)
Lemma startup_succeeds_iff_witness :
  fst (startup cfg0 json_loads0 requests_str0 list_str0 W0 (Machine initial [] 0))
  = inl tg0.
Proof.
  apply (startup_succeeds_iff cfg0 json_loads0 requests_str0 list_str0 W0
                              (Machine initial [] 0) tg0).
  exists "198.51.100.1", "198.51.100.2", (Response 200 "listing"), listing0.
  repeat split. discriminate.
Defined.

Lemma startup_sends_only_the_listing_request_witness :
  main cfg0 json_loads0 requests_str0 list_str0
       (World dns0 (fun _ => Failed ConnectionError)) [w_ok; w_ok] =
  main cfg0 json_loads0 requests_str0 list_str0
       (World dns0 (fun _ => Failed ConnectionError)) [].
Proof.
  apply (proj2 (proj2 (startup_sends_only_the_listing_request
                         cfg0 json_loads0 requests_str0 list_str0
                         (World dns0 (fun _ => Failed ConnectionError))
                         [w_ok; w_ok]))).
  reflexivity.
Defined.


Lemma checks_collapse_without_placeholder_witness :
  main_check_url (Targets "198.51.100.1" "198.51.100.2"
                          "https://lb.example.org/stats"
                          "https://lb.example.org/stats"
                          ["203.0.113.10"; "203.0.113.11"])
  = "https://lb.example.org/stats" /\
  back_check_url (Targets "198.51.100.1" "198.51.100.2"
                          "https://lb.example.org/stats"
                          "https://lb.example.org/stats"
                          ["203.0.113.10"; "203.0.113.11"])
  = "https://lb.example.org/stats".
Proof.
  apply (checks_collapse_without_placeholder
           (Config "lb1.example.org" "lb2.example.org" "dXNlcjpwdw=="
                   "https://robot-ws.your-server.de/" "YWRtaW46cHc="
                   "https://lb.example.org/stats" false)
           json_loads0 requests_str0 list_str0 W0 (Machine initial [] 0));
    reflexivity.
Defined.

Lemma startup_failure_is_logged_witness :
  In (Print (log_line 2 ("Could not get Failover IPs for " ++ host cfg0)))
     (trace (main cfg0 json_loads0 requests_str0 list_str0
                  (World dns0 (fun _ => Answered (Response 404 "{}"))) [w_ok])).
Proof.
  apply (proj2 (proj2 (startup_failure_is_logged
                         cfg0 json_loads0 requests_str0 list_str0
                         (World dns0 (fun _ => Answered (Response 404 "{}")))
                         [w_ok]))).
  exists "198.51.100.1", "198.51.100.2",
         "Expecting value: line 1 column 1 (char 0)".
  repeat split.
Defined.


(** A configuration file without the [backup] key. *)
Example read_config_without_backup :
  read_config
    (Some (fun section key =>
             if String.eqb key "backup" then None else Some "x"))
    false
  = inr (Lifted (NameError "log")).
Proof. reflexivity. Qed.
